(** * ROOMANCE API: the relationship / decision engine of [src/main.py]

    A shallow embedding of the request handlers of [src/main.py] that read and
    write the [match], [profile] and [message] collections, over a small model
    of the document store they call, followed by the properties of the
    like/dislike ledger, of candidate discovery, of the chat list and of
    message retrieval. *)

From stdpp Require Import gmap strings list sorting pretty.
From Stdlib Require Import ZArith.

#[local] Set Warnings "-register-all,-clear-no-such-hyp".
Local Open Scope string_scope.
Local Open Scope Z_scope.
Local Open Scope list_scope.

(** ** Values and documents *)

(** A [bson.ObjectId]: twelve opaque bytes, read here as one number. *)
Definition ObjectId : Type := N.

(** A naive UTC [datetime], as microseconds since the epoch. *)
Definition datetime : Type := Z.

(** The values the handlers store in documents and return in responses. *)
Inductive value : Type :=
  | VNone
  | VInt (n : Z)
  | VStr (s : string)
  | VStrs (l : list string)
  | VOid (o : ObjectId)
  | VDate (t : datetime).

#[global] Instance value_eq_dec : EqDecision value.
Proof. solve_decision. Defined.

(** A Python [dict] with string keys: a stored document, a query document, an
    update document or a response body. *)
Abbreviation dict := (gmap string value).

(** [d.get(k)]: Python's [None] when the key is missing. *)
Definition py_get (d : dict) (k : string) : value := default VNone (d !! k).

(** Truth value of a Python object, as [if x:] tests it. *)
Definition truthy (v : value) : bool :=
  match v with
  | VNone => false
  | VInt n => negb (n =? 0)
  | VStr s => negb (bool_decide (s = ""))
  | VStrs l => negb (bool_decide (l = []))
  | VOid _ => true
  | VDate _ => true
  end.

(** Truth value of a dict: the empty dict is false. *)
Definition dict_truthy (d : dict) : bool := negb (bool_decide (d = ∅)).

(** Lists cannot be hashed, so they cannot enter or be looked up in a set. *)
Definition hashable (v : value) : bool :=
  match v with
  | VStrs _ => false
  | _ => true
  end.

(** ** The library calls the handlers rely on

    [bson.ObjectId(...)], [str(...)], [datetime.isoformat],
    [datetime.utcnow()] and the generation of a new [_id] are taken as given:
    the n-th reading of the clock is [utcnow n] and the n-th generated
    identifier is [new_oid n]. *)
Record Runtime : Type := {
  ObjectId_parse : string → option ObjectId;
  py_str : value → string;
  isoformat : datetime → string;
  utcnow : nat → datetime;
  new_oid : nat → ObjectId
}.

(** ** The document store *)

(** Modelled from the spec: the document store [db] that [src/main.py]
    imports from [database], which is not among the sources: "a durable
    key-value/document store providing atomic upsert-by-key and range/sort
    queries".  A collection is the list of its documents in natural order, and
    each operation below follows the pymongo call of the same name as the
    handlers make it. *)
Abbreviation collection := (list dict).

(** A query value against a stored value: equality, or membership when the
    stored value is an array. *)
Definition value_matches (dv qv : value) : bool :=
  bool_decide (dv = qv) ||
  match dv, qv with
  | VStrs l, VStr s => bool_decide (s ∈ l)
  | _, _ => false
  end.

(** [{k: qv}] against a document; a [None] query value also matches a
    missing field. *)
Definition field_matches (d : dict) (k : string) (qv : value) : bool :=
  match d !! k with
  | Some dv => value_matches dv qv
  | None => bool_decide (qv = VNone)
  end.

(** The three shapes of query document the handlers build. *)
Inductive Query : Type :=
  | QEq (flds : dict)                (* {"k1": v1, "k2": v2, ...} *)
  | QNe (k : string) (v : value)     (* {"k": {"$ne": v}} *)
  | QOr (qs : list Query).           (* {"$or": [q1, q2, ...]} *)

Fixpoint qmatch (q : Query) (d : dict) : bool :=
  match q with
  | QEq flds => bool_decide (map_Forall (λ k v, field_matches d k v = true) flds)
  | QNe k v => negb (field_matches d k v)
  | QOr qs => existsb (λ q', qmatch q' d) qs
  end.

(** [coll.find(q)] *)
Definition find (q : Query) (c : collection) : collection :=
  filter (λ d, qmatch q d = true) c.

(** [coll.find_one(q)] *)
Definition find_one (q : Query) (c : collection) : option dict :=
  snd <$> list_find (λ d, qmatch q d = true) c.

(** Sort order of the store on one field: values are ordered by BSON type
    first (a missing field sorts as null), numbers and dates by value within
    their type.  The handlers sort on [updated_at] and [created_at], which
    are dates in every document they write; values of the other types are
    told apart by type only. *)
Definition bson_rank (v : option value) : Z :=
  match v with
  | None | Some VNone => 2
  | Some (VInt _) => 3
  | Some (VStr _) => 4
  | Some (VStrs _) => 6
  | Some (VOid _) => 8
  | Some (VDate _) => 10
  end.

Definition bson_num (v : option value) : Z :=
  match v with
  | Some (VInt n) => n
  | Some (VDate t) => t
  | _ => 0
  end.

Definition key_le (a b : option value) : Prop :=
  bson_rank a < bson_rank b ∨ (bson_rank a = bson_rank b ∧ bson_num a ≤ bson_num b).

#[global] Instance key_le_dec a b : Decision (key_le a b).
Proof. unfold key_le. apply _. Defined.

(** [pymongo.ASCENDING = 1], [pymongo.DESCENDING = -1] *)
Inductive Direction : Type := ASCENDING | DESCENDING.

Definition doc_le (k : string) (dir : Direction) (d1 d2 : dict) : Prop :=
  match dir with
  | ASCENDING => key_le (d1 !! k) (d2 !! k)
  | DESCENDING => key_le (d2 !! k) (d1 !! k)
  end.

#[global] Instance doc_le_dec k dir d1 d2 : Decision (doc_le k dir d1 d2).
Proof. destruct dir; apply _. Defined.

(** [cursor.sort(k, dir)].  The store does not say in which order documents
    with equal keys come; no property below depends on it. *)
Definition cursor_sort (k : string) (dir : Direction) (c : collection) : collection :=
  merge_sort (doc_le k dir) c.

(** [cursor.limit(n)]: "a limit of 0 is equivalent to no limit"; a negative
    limit asks for one batch of at most [-n] documents. *)
Definition cursor_limit (n : Z) (c : collection) : collection :=
  if decide (n = 0) then c else take (Z.to_nat (Z.abs n)) c.

(** [coll.update_one(flt, {"$set": set, "$setOnInsert": soi}, upsert)]:
    the first document matching [flt] gets the fields of [set]; when there is
    none and [upsert] holds, a document made of the fields of [flt], [set] and
    [soi] is inserted, with [fresh] as its [_id] unless it has one.  Returns
    the collection, [matched_count] and [upserted_id]. *)
Definition update_one (flt set soi : dict) (upsert : bool) (fresh : ObjectId)
    (c : collection) : collection * Z * option value :=
  match list_find (λ d, qmatch (QEq flt) d = true) c with
  | Some (i, d) => (<[i := set ∪ d]> c, 1, None)
  | None =>
      if upsert then
        let new := set ∪ (soi ∪ flt) in
        let new := if new !! "_id" is Some _ then new else <["_id" := VOid fresh]> new in
        (c ++ [new], 0, new !! "_id")
      else (c, 0, None)
  end.

(** ** State and handlers' monad *)

Record State : Type := {
  db : gmap string collection;   (* db[name] *)
  clock : nat;                   (* readings of utcnow() taken so far *)
  minted : nat                   (* identifiers generated so far *)
}.

(** [db[name]]: a collection that was never written to is empty. *)
Definition coll (s : State) (name : string) : collection :=
  default [] (db s !! name).

Definition set_coll (name : string) (c : collection) (s : State) : State :=
  {| db := <[name := c]> (db s); clock := clock s; minted := minted s |}.

Inductive exn : Type :=
  | HTTPException (status_code : Z) (detail : string)
  | KeyError (key : string)
  | TypeError (msg : string).

Inductive outcome (A : Type) : Type :=
  | Ok (a : A)
  | Raise (e : exn).
Arguments Ok {A} a.
Arguments Raise {A} e.

Definition M (A : Type) : Type := State → outcome A * State.

Definition ret {A} (a : A) : M A := λ s, (Ok a, s).

Definition raise {A} (e : exn) : M A := λ s, (Raise e, s).

Definition bind {A B} (m : M A) (k : A → M B) : M B :=
  λ s, match m s with
       | (Ok a, s') => k a s'
       | (Raise e, s') => (Raise e, s')
       end.

Notation "x <- m ;; k" := (bind m (λ x, k))
  (at level 100, m at next level, right associativity).
Notation "m ;;; k" := (bind m (λ _, k))
  (at level 100, right associativity).

(** [datetime.utcnow()] *)
Definition now (rt : Runtime) : M datetime :=
  λ s, (Ok (utcnow rt (clock s)),
        {| db := db s; clock := S (clock s); minted := minted s |}).

(** [d[k]] *)
Definition getitem (d : dict) (k : string) : M value :=
  match d !! k with
  | Some v => ret v
  | None => raise (KeyError k)
  end.

Definition db_find (name : string) (q : Query) : M collection :=
  λ s, (Ok (find q (coll s name)), s).

Definition db_find_one (name : string) (q : Query) : M (option dict) :=
  λ s, (Ok (find_one q (coll s name)), s).

Definition db_update_one (rt : Runtime) (name : string) (flt set soi : dict)
    (upsert : bool) : M Z :=
  λ s, let '(c, matched_count, upserted_id) :=
         update_one flt set soi upsert (new_oid rt (minted s)) (coll s name) in
       (Ok matched_count,
        {| db := <[name := c]> (db s); clock := clock s;
           minted := if upserted_id is Some _ then S (minted s) else minted s |}).

(** [coll.insert_one(d).inserted_id]: the document gets a new [_id] when it
    has none. *)
Definition db_insert_one (rt : Runtime) (name : string) (d : dict) : M value :=
  λ s, match d !! "_id" with
       | Some i => (Ok i, set_coll name (coll s name ++ [d]) s)
       | None =>
           let i := VOid (new_oid rt (minted s)) in
           (Ok i,
            {| db := <[name := coll s name ++ [<["_id" := i]> d]]> (db s);
               clock := clock s; minted := S (minted s) |})
       end.

(** ** Utility *)

Definition to_oid (rt : Runtime) (id_str : string) : M ObjectId :=
  match ObjectId_parse rt id_str with
  | Some o => ret o
  | None => raise (HTTPException 400 "Invalid id format")
  end.

(** [doc] is a document or [None]: the result of [find_one] is passed as it
    is. *)
Definition serialize (rt : Runtime) (doc : option dict) : option dict :=
  match doc with
  | None => None
  | Some doc =>
      if negb (dict_truthy doc) then None
      else
        let d := delete "_id" doc in
        let _id := py_get doc "_id" in
        let d := if truthy _id then <["id" := VStr (py_str rt _id)]> d else d in
        (* Convert datetime to isoformat *)
        Some ((λ v, if v is VDate t then VStr (isoformat rt t) else v) <$> d)
  end.

(** ** Schemas *)

Module ProfileDetails.
Record t : Type := {
  user_id : string;
  nickname : string;
  bio : option string;
  tags : list string;
  photos : list string;
  age : option Z
}.
End ProfileDetails.

Module ProfileUpdate.
Record t : Type := {
  user_id : string;
  nickname : option string;
  bio : option string;
  tags : option (list string);
  photos : option (list string);
  age : option Z
}.
End ProfileUpdate.

(** [action] is checked against the pattern [^(like|dislike)$] before the
    handler runs. *)
Module LikeRequest.
Record t : Type := {
  user_id : string;
  target_id : string;
  action : string
}.
Definition valid (payload : t) : Prop :=
  action payload = "like" ∨ action payload = "dislike".
End LikeRequest.

Module SendMessageRequest.
Record t : Type := {
  user_id : string;
  peer_id : string;
  text : string
}.
End SendMessageRequest.

(** The body [{"matched": matched}] of the answer to a like or dislike. *)
Record LikeResponse : Type := { matched : bool }.

(** An optional field of a request as a Python value. *)
Definition opt_value {A} (f : A → value) (o : option A) : value :=
  match o with
  | Some a => f a
  | None => VNone
  end.

(** ** Profile *)

Definition create_or_complete_profile (rt : Runtime) (details : ProfileDetails.t)
    : M (option dict) :=
  user_oid <- to_oid rt (ProfileDetails.user_id details) ;;
  (* upsert *)
  t_set <- now rt ;;
  t_ins <- now rt ;;
  db_update_one rt "profile"
    {[ "user_id" := VOid user_oid ]}
    {[ "user_id" := VOid user_oid;
       "nickname" := VStr (ProfileDetails.nickname details);
       "bio" := opt_value VStr (ProfileDetails.bio details);
       "tags" := VStrs (ProfileDetails.tags details);
       "photos" := VStrs (ProfileDetails.photos details);
       "age" := opt_value VInt (ProfileDetails.age details);
       "updated_at" := VDate t_set ]}
    {[ "created_at" := VDate t_ins ]}
    true ;;;
  prof <- db_find_one "profile" (QEq {[ "user_id" := VOid user_oid ]}) ;;
  ret (serialize rt prof).

(** One entry of [changes]: a field of the request that is not [None]. *)
Definition change {A} (k : string) (f : A → value) (o : option A) (d : dict) : dict :=
  match o with
  | Some a => <[k := f a]> d
  | None => d
  end.

Definition update_profile (rt : Runtime) (payload : ProfileUpdate.t)
    : M (option dict) :=
  user_oid <- to_oid rt (ProfileUpdate.user_id payload) ;;
  let changes :=
    change "nickname" VStr (ProfileUpdate.nickname payload)
      (change "bio" VStr (ProfileUpdate.bio payload)
        (change "tags" VStrs (ProfileUpdate.tags payload)
          (change "photos" VStrs (ProfileUpdate.photos payload)
            (change "age" VInt (ProfileUpdate.age payload) ∅)))) in
  if negb (dict_truthy changes) then
    raise (HTTPException 400 "No changes provided")
  else
    t <- now rt ;;
    let changes := <["updated_at" := VDate t]> changes in
    matched_count <- db_update_one rt "profile"
      {[ "user_id" := VOid user_oid ]} changes ∅ false ;;
    if bool_decide (matched_count = 0) then
      raise (HTTPException 404 "Profile not found")
    else
      prof <- db_find_one "profile" (QEq {[ "user_id" := VOid user_oid ]}) ;;
      ret (serialize rt prof).

(** ** Discovery / Likes *)

(** [acted_ids.add(x)] *)
Definition set_add (x : value) (acted_ids : list value) : M (list value) :=
  if hashable x then ret (x :: acted_ids)
  else raise (TypeError "unhashable type: 'list'").

(** [x not in acted_ids] *)
Definition set_not_in (x : value) (acted_ids : list value) : M bool :=
  if hashable x then ret (bool_decide (x ∉ acted_ids))
  else raise (TypeError "unhashable type: 'list'").

(** [for m in db["match"].find(...): acted_ids.add(m.get("target_id"))] *)
Fixpoint collect_acted (ms : collection) (acted_ids : list value) : M (list value) :=
  match ms with
  | [] => ret acted_ids
  | m :: ms =>
      acted_ids <- set_add (py_get m "target_id") acted_ids ;;
      collect_acted ms acted_ids
  end.

Definition no_more_profiles : dict := {[ "message" := VStr "No more profiles" ]}.

(** [for cand in candidates: ...], down to the final [return]. *)
Fixpoint first_unacted (rt : Runtime) (acted_ids : list value) (candidates : collection)
    : M (option dict) :=
  match candidates with
  | [] => ret (Some no_more_profiles)
  | cand :: candidates =>
      uid <- getitem cand "user_id" ;;
      fresh <- set_not_in uid acted_ids ;;
      if fresh then ret (serialize rt (Some cand))
      else first_unacted rt acted_ids candidates
  end.

Definition next_profile (rt : Runtime) (user_id : string) : M (option dict) :=
  user_oid <- to_oid rt user_id ;;
  (* exclude self and already acted upon *)
  ms <- db_find "match" (QEq {[ "user_id" := VOid user_oid ]}) ;;
  acted_ids <- collect_acted ms [] ;;
  let query := QNe "user_id" (VOid user_oid) in
  found <- db_find "profile" query ;;
  let candidates := cursor_sort "updated_at" DESCENDING found in
  first_unacted rt acted_ids candidates.

Definition like_profile (rt : Runtime) (payload : LikeRequest.t) : M LikeResponse :=
  user_oid <- to_oid rt (LikeRequest.user_id payload) ;;
  target_oid <- to_oid rt (LikeRequest.target_id payload) ;;
  if bool_decide (user_oid = target_oid) then
    raise (HTTPException 400 "Cannot like yourself")
  else
    (* record action *)
    t_set <- now rt ;;
    t_ins <- now rt ;;
    db_update_one rt "match"
      {[ "user_id" := VOid user_oid; "target_id" := VOid target_oid ]}
      {[ "action" := VStr (LikeRequest.action payload); "updated_at" := VDate t_set ]}
      {[ "created_at" := VDate t_ins ]}
      true ;;;
    if bool_decide (LikeRequest.action payload = "like") then
      (* check reciprocal like *)
      other <- db_find_one "match"
        (QEq {[ "user_id" := VOid target_oid; "target_id" := VOid user_oid;
                "action" := VStr "like" ]}) ;;
      ret {| matched := bool_decide (other ≠ None) |}
    else ret {| matched := false |}.

(** ** Chats *)

(** [for like in my_likes: ...] *)
Fixpoint mutual_peers (rt : Runtime) (user_oid : ObjectId) (my_likes : collection)
    (peers : list (option dict)) : M (list (option dict)) :=
  match my_likes with
  | [] => ret peers
  | like :: my_likes =>
      target <- getitem like "target_id" ;;
      other_like <- db_find_one "match"
        (QEq {[ "user_id" := target; "target_id" := VOid user_oid;
                "action" := VStr "like" ]}) ;;
      match other_like with
      | Some o =>
          if dict_truthy o then
            peer_prof <- db_find_one "profile" (QEq {[ "user_id" := target ]}) ;;
            match peer_prof with
            | Some p =>
                if dict_truthy p then
                  mutual_peers rt user_oid my_likes (peers ++ [serialize rt peer_prof])
                else mutual_peers rt user_oid my_likes peers
            | None => mutual_peers rt user_oid my_likes peers
            end
          else mutual_peers rt user_oid my_likes peers
      | None => mutual_peers rt user_oid my_likes peers
      end
  end.

Definition list_chats (rt : Runtime) (user_id : string) : M (list (option dict)) :=
  user_oid <- to_oid rt user_id ;;
  (* find mutual likes *)
  my_likes <- db_find "match"
    (QEq {[ "user_id" := VOid user_oid; "action" := VStr "like" ]}) ;;
  mutual_peers rt user_oid my_likes [].

(** [limit] defaults to 50 when the request leaves it out. *)
Definition default_limit : Z := 50.

Definition get_messages (rt : Runtime) (user_id peer_id : string) (limit : Z)
    : M (list (option dict)) :=
  u <- to_oid rt user_id ;;
  p <- to_oid rt peer_id ;;
  let q := QOr [ QEq {[ "sender_id" := VOid u; "receiver_id" := VOid p ]};
                 QEq {[ "sender_id" := VOid p; "receiver_id" := VOid u ]} ] in
  found <- db_find "message" q ;;
  let msgs := cursor_limit limit (cursor_sort "created_at" ASCENDING found) in
  ret ((λ m, serialize rt (Some m)) <$> msgs).

Definition send_message (rt : Runtime) (payload : SendMessageRequest.t)
    : M (option dict) :=
  u <- to_oid rt (SendMessageRequest.user_id payload) ;;
  p <- to_oid rt (SendMessageRequest.peer_id payload) ;;
  t <- now rt ;;
  let doc : dict :=
    {[ "sender_id" := VOid u;
       "receiver_id" := VOid p;
       "text" := VStr (SendMessageRequest.text payload);
       "created_at" := VDate t ]} in
  mid <- db_insert_one rt "message" doc ;;
  saved <- db_find_one "message" (QEq {[ "_id" := mid ]}) ;;
  ret (serialize rt saved).

(** ** Sequences of requests *)

Inductive Request : Type :=
  | PostProfileDetails (details : ProfileDetails.t)
  | PostProfileUpdate (payload : ProfileUpdate.t)
  | GetProfilesNext (user_id : string)
  | PostProfilesLike (payload : LikeRequest.t)
  | GetChatsList (user_id : string)
  | GetChatsMessages (user_id peer_id : string) (limit : Z)
  | PostChatsSend (payload : SendMessageRequest.t).

(** The state a request leaves behind, whether it answers or raises. *)
Definition handle (rt : Runtime) (r : Request) (s : State) : State :=
  match r with
  | PostProfileDetails details => snd (create_or_complete_profile rt details s)
  | PostProfileUpdate payload => snd (update_profile rt payload s)
  | GetProfilesNext user_id => snd (next_profile rt user_id s)
  | PostProfilesLike payload => snd (like_profile rt payload s)
  | GetChatsList user_id => snd (list_chats rt user_id s)
  | GetChatsMessages user_id peer_id limit => snd (get_messages rt user_id peer_id limit s)
  | PostChatsSend payload => snd (send_message rt payload s)
  end.

Definition run (rt : Runtime) (reqs : list Request) (s : State) : State :=
  foldl (λ s r, handle rt r s) s reqs.

(** The store before any request: no collection has a document. *)
Definition initial : State := {| db := ∅; clock := 0; minted := 0 |}.

(** ** Profile lookup *)

(** [if not prof:] on the result of [find_one]: [None] and the empty dict
    are false. *)
Definition found (o : option dict) : bool :=
  match o with
  | Some d => dict_truthy d
  | None => false
  end.

Definition get_my_profile (rt : Runtime) (user_id : string) : M (option dict) :=
  user_oid <- to_oid rt user_id ;;
  prof <- db_find_one "profile" (QEq {[ "user_id" := VOid user_oid ]}) ;;
  if negb (found prof) then raise (HTTPException 404 "Profile not found")
  else ret (serialize rt prof).

(** ** Vocabulary of the properties *)

(** The action ledger, the profile store and the message log. *)
Definition ledger (s : State) : collection := coll s "match".
Definition profiles (s : State) : collection := coll s "profile".
Definition message_log (s : State) : collection := coll s "message".

(** [d] is the action record of actor [a] towards target [b]. *)
Definition is_action (a b : ObjectId) (d : dict) : Prop :=
  d !! "user_id" = Some (VOid a) ∧ d !! "target_id" = Some (VOid b).

#[global] Instance is_action_dec a b d : Decision (is_action a b d).
Proof. unfold is_action. apply _. Defined.

(** [d] records a like of [a] towards [b]. *)
Definition is_like (a b : ObjectId) (d : dict) : Prop :=
  is_action a b d ∧ field_matches d "action" (VStr "like") = true.

(** The ledger holds (a → b, like). *)
Definition holds_like (s : State) (a b : ObjectId) : Prop :=
  ∃ d, d ∈ ledger s ∧ is_like a b d.

(** A profile document is stored for user [b]. *)
Definition has_profile (s : State) (b : ObjectId) : Prop :=
  ∃ p, p ∈ profiles s ∧ p !! "user_id" = Some (VOid b).

(** A response body shows the profile of user [b]. *)
Definition shows (b : ObjectId) (r : option dict) : Prop :=
  ∃ d, r = Some d ∧ d !! "user_id" = Some (VOid b).

(** [m] is a message of the conversation between [a] and [b], whichever
    side sent it. *)
Definition in_conversation (a b : ObjectId) (m : dict) : Prop :=
  (m !! "sender_id" = Some (VOid a) ∧ m !! "receiver_id" = Some (VOid b)) ∨
  (m !! "sender_id" = Some (VOid b) ∧ m !! "receiver_id" = Some (VOid a)).

#[global] Instance in_conversation_dec a b m : Decision (in_conversation a b m).
Proof. unfold in_conversation. apply _. Defined.

(** [a] has recorded a decision on the owner of profile [p]. *)
Definition decided_on (s : State) (a : ObjectId) (p : dict) : Prop :=
  ∃ m, m ∈ ledger s ∧ m !! "user_id" = Some (VOid a) ∧
       p !! "user_id" = Some (py_get m "target_id").

(** [p] is a candidate for [a]: a stored profile of another user on whom
    [a] has recorded no decision. *)
Definition candidate (s : State) (a : ObjectId) (p : dict) : Prop :=
  p ∈ profiles s ∧ p !! "user_id" ≠ Some (VOid a) ∧ is_Some (p !! "user_id") ∧
  ¬ decided_on s a p.

(** What a like or dislike of [a] on [b] writes: the query, the [$set]
    part and the [$setOnInsert] part of the upsert, and the ledger after
    it. *)
Definition action_key (a b : ObjectId) : dict :=
  {[ "user_id" := VOid a; "target_id" := VOid b ]}.

Definition action_set (act : string) (t : datetime) : dict :=
  {[ "action" := VStr act; "updated_at" := VDate t ]}.

Definition action_new (a b : ObjectId) (act : string) (t_set t_ins : datetime)
    (fresh : ObjectId) : dict :=
  <["_id" := VOid fresh]>
    (action_set act t_set ∪ ({[ "created_at" := VDate t_ins ]} ∪ action_key a b)).

Definition ledger_upsert (rt : Runtime) (a b : ObjectId) (act : string) (s : State)
    : collection :=
  (update_one (action_key a b)
     (action_set act (utcnow rt (clock s)))
     {[ "created_at" := VDate (utcnow rt (S (clock s))) ]}
     true (new_oid rt (minted s)) (ledger s)).1.1.

(** The actor and target fields of an action record. *)
Definition pair_of (d : dict) : option value * option value :=
  (d !! "user_id", d !! "target_id").

(** A computation leaves the collection [name] as it found it. *)
Definition preserves {A} (name : string) (m : M A) : Prop :=
  ∀ s, coll (m s).2 name = coll s name.

(** A computation only reads: it leaves the whole state as it found it. *)
Definition read_only {A} (m : M A) : Prop := ∀ s, (m s).2 = s.

(** The shape of the documents the handlers write: an action record has an
    identifier as [target_id] and a profile has one as [user_id].  On such a
    store no handler raises [KeyError] or [TypeError]. *)
Definition has_oid (k : string) (d : dict) : Prop := ∃ o, d !! k = Some (VOid o).

Definition well_formed (s : State) : Prop :=
  Forall (has_oid "target_id") (ledger s) ∧ Forall (has_oid "user_id") (profiles s).

(** [datetime] values become strings in a response. *)
Definition isoformat_value (rt : Runtime) (v : value) : value :=
  if v is VDate t then VStr (isoformat rt t) else v.

(** ** A sample runtime

    Identifiers are written as 24 hexadecimal digits; the clock advances by
    one at each reading. *)
Definition hex_digit (c : Ascii.ascii) : option N :=
  let n := Ascii.N_of_ascii c in
  if (48 <=? n)%N && (n <=? 57)%N then Some (n - 48)%N
  else if (97 <=? n)%N && (n <=? 102)%N then Some (n - 87)%N
  else if (65 <=? n)%N && (n <=? 70)%N then Some (n - 55)%N
  else None.

Fixpoint hex_value (s : string) (acc : N) : option N :=
  match s with
  | EmptyString => Some acc
  | String c s =>
      match hex_digit c with
      | Some d => hex_value s (16 * acc + d)%N
      | None => None
      end
  end.

Definition sample_rt : Runtime := {|
  ObjectId_parse := λ s,
    if bool_decide (String.length s = 24%nat) then hex_value s 0 else None;
  py_str := λ v, match v with
                 | VOid o => pretty o
                 | VStr s => s
                 | _ => "None"
                 end;
  isoformat := λ t, pretty t;
  utcnow := λ n, 1000 + Z.of_nat n;
  new_oid := λ n, (4096 + N.of_nat n)%N
|}.

Definition alice : string := "00000000000000000000000a".
Definition bob : string := "00000000000000000000000b".
Definition carol : string := "00000000000000000000000c".

Definition like_request (user_id target_id action : string) : LikeRequest.t :=
  {| LikeRequest.user_id := user_id; LikeRequest.target_id := target_id;
     LikeRequest.action := action |}.

Definition profile_details (user_id nickname : string) : ProfileDetails.t :=
  {| ProfileDetails.user_id := user_id; ProfileDetails.nickname := nickname;
     ProfileDetails.bio := Some ""; ProfileDetails.tags := [];
     ProfileDetails.photos := []; ProfileDetails.age := None |}.

(** Three users with a profile each, created in this order. *)
Definition three_profiles : list Request :=
  [ PostProfileDetails (profile_details alice "Alice");
    PostProfileDetails (profile_details bob "Bob");
    PostProfileDetails (profile_details carol "Carol") ].

Definition send_request (user_id peer_id text : string) : SendMessageRequest.t :=
  {| SendMessageRequest.user_id := user_id; SendMessageRequest.peer_id := peer_id;
     SendMessageRequest.text := text |}.

(** [m1] was created no later than [m2]. *)
Definition not_after (m1 m2 : dict) : Prop :=
  key_le (m1 !! "created_at") (m2 !! "created_at").

(** A request is turned down with this status and detail, and the state is
    the one it was sent to. *)
Definition rejected {A} (status_code : Z) (detail : string) (s : State)
    : outcome A * State :=
  (Raise (HTTPException status_code detail), s).

(** The message that [send_message] stores. *)
Definition new_message (rt : Runtime) (u p : ObjectId) (text : string) (s : State)
    : dict :=
  <["_id" := VOid (new_oid rt (minted s))]>
    {[ "sender_id" := VOid u; "receiver_id" := VOid p; "text" := VStr text;
       "created_at" := VDate (utcnow rt (clock s)) ]}.

(** What [create_or_complete_profile] sets on the profile of [u]: the
    [$set] part of its upsert. *)
Definition profile_set (details : ProfileDetails.t) (u : ObjectId) (t : datetime)
    : dict :=
  {[ "user_id" := VOid u;
     "nickname" := VStr (ProfileDetails.nickname details);
     "bio" := opt_value VStr (ProfileDetails.bio details);
     "tags" := VStrs (ProfileDetails.tags details);
     "photos" := VStrs (ProfileDetails.photos details);
     "age" := opt_value VInt (ProfileDetails.age details);
     "updated_at" := VDate t ]}.

(** The [changes] of a [ProfileUpdate] request, before [updated_at] is
    added. *)
Definition changes_of (payload : ProfileUpdate.t) : dict :=
  change "nickname" VStr (ProfileUpdate.nickname payload)
    (change "bio" VStr (ProfileUpdate.bio payload)
      (change "tags" VStrs (ProfileUpdate.tags payload)
        (change "photos" VStrs (ProfileUpdate.photos payload)
          (change "age" VInt (ProfileUpdate.age payload) ∅)))).

(** [p] is a profile of user [u]. *)
Definition profile_of (u : ObjectId) (p : dict) : Prop :=
  p !! "user_id" = Some (VOid u).

#[global] Instance profile_of_dec u p : Decision (profile_of u p).
Proof. unfold profile_of. apply _. Defined.

Definition profile_update (user_id : string) (nickname : option string)
    : ProfileUpdate.t :=
  {| ProfileUpdate.user_id := user_id; ProfileUpdate.nickname := nickname;
     ProfileUpdate.bio := None; ProfileUpdate.tags := None;
     ProfileUpdate.photos := None; ProfileUpdate.age := None |}.

(** The value of a profile field after an update that may set it. *)
Definition updated {A} (f : A → value) (o : option A) (old : option value)
    : option value :=
  match o with
  | Some a => Some (f a)
  | None => old
  end.

(** The profile that [create_or_complete_profile] inserts for a user
    without one. *)
Definition profile_new (details : ProfileDetails.t) (u : ObjectId)
    (t_set t_ins : datetime) (fresh : ObjectId) : dict :=
  <["_id" := VOid fresh]>
    (profile_set details u t_set ∪
       ({[ "created_at" := VDate t_ins ]} ∪ {[ "user_id" := VOid u ]})).

(** The response [r] is the document [doc] as the handlers answer it: a dict
    without [_id], whose [id] is [str(_id)] when [doc] has a true [_id] and
    [doc]'s own [id] otherwise, and whose every other field is the field of
    [doc], a date in ISO format and any other value as it is. *)
Definition rendering (rt : Runtime) (doc : dict) (r : option dict) : Prop :=
  ∃ d, r = Some d ∧
       d !! "_id" = None ∧
       d !! "id" =
         (if truthy (py_get doc "_id")
          then Some (VStr (py_str rt (py_get doc "_id")))
          else isoformat_value rt <$> doc !! "id") ∧
       ∀ k, k ≠ "id" → k ≠ "_id" → d !! k = isoformat_value rt <$> doc !! k.

(** ** Facts about queries *)

Lemma value_matches_oid dv o : value_matches dv (VOid o) = true ↔ dv = VOid o.
Proof.
  unfold value_matches. rewrite orb_true_iff, bool_decide_eq_true.
  split; [intros [?|?]; [done|by destruct dv] | by left].
Qed.

Lemma field_matches_oid (d : dict) k o :
  field_matches d k (VOid o) = true ↔ d !! k = Some (VOid o).
Proof.
  unfold field_matches. destruct (d !! k) as [dv|].
  - rewrite value_matches_oid. naive_solver.
  - rewrite bool_decide_eq_true. naive_solver.
Qed.

Lemma field_matches_Some (d : dict) k v :
  d !! k = Some v → field_matches d k v = true.
Proof.
  intros H. unfold field_matches, value_matches. rewrite H.
  by rewrite bool_decide_eq_true_2.
Qed.

Lemma qmatch_singleton k v (d : dict) :
  qmatch (QEq {[ k := v ]}) d = true ↔ field_matches d k v = true.
Proof.
  simpl. rewrite bool_decide_eq_true.
  apply (map_Forall_singleton (λ k v, field_matches d k v = true)).
Qed.

Lemma qmatch_insert k v (flds d : dict) :
  flds !! k = None →
  qmatch (QEq (<[k := v]> flds)) d = true ↔
  field_matches d k v = true ∧ qmatch (QEq flds) d = true.
Proof.
  intros H. simpl. rewrite !bool_decide_eq_true.
  by apply (map_Forall_insert (λ k v, field_matches d k v = true)).
Qed.

Lemma qmatch_action a b (d : dict) :
  qmatch (QEq {[ "user_id" := VOid a; "target_id" := VOid b ]}) d = true ↔
  is_action a b d.
Proof.
  rewrite qmatch_insert by done.
  by rewrite qmatch_singleton, !field_matches_oid.
Qed.

Lemma qmatch_like a b (d : dict) :
  qmatch (QEq {[ "user_id" := VOid a; "target_id" := VOid b;
                 "action" := VStr "like" ]}) d = true ↔
  is_like a b d.
Proof.
  rewrite !qmatch_insert by done.
  rewrite qmatch_singleton, !field_matches_oid. unfold is_like, is_action.
  naive_solver.
Qed.

Lemma qmatch_conversation a b (m : dict) :
  qmatch (QOr [ QEq {[ "sender_id" := VOid a; "receiver_id" := VOid b ]};
                QEq {[ "sender_id" := VOid b; "receiver_id" := VOid a ]} ]) m = true ↔
  in_conversation a b m.
Proof.
  cbn [qmatch existsb]. rewrite orb_false_r, orb_true_iff.
  change (qmatch (QEq {["sender_id" := VOid a; "receiver_id" := VOid b]}) m = true ∨
          qmatch (QEq {["sender_id" := VOid b; "receiver_id" := VOid a]}) m = true
          ↔ in_conversation a b m).
  rewrite !qmatch_insert by done.
  by rewrite !qmatch_singleton, !field_matches_oid.
Qed.

Lemma find_one_head q c : find_one q c = head (find q c).
Proof.
  unfold find_one, find. induction c as [|d c IH]; [done|].
  cbn [list_find]. rewrite filter_cons.
  destruct (decide (qmatch q d = true)); [done|].
  rewrite <- IH. by destruct (list_find _ c) as [[]|].
Qed.

Lemma elem_of_find q c d : d ∈ find q c ↔ d ∈ c ∧ qmatch q d = true.
Proof. unfold find. rewrite list_elem_of_filter. naive_solver. Qed.

Lemma find_one_Some q c d : find_one q c = Some d → d ∈ c ∧ qmatch q d = true.
Proof.
  rewrite find_one_head. intros H. apply elem_of_find.
  destruct (find q c); simplify_eq/=. left.
Qed.

Lemma find_one_None q c : find_one q c = None ↔ ∀ d, d ∈ c → qmatch q d ≠ true.
Proof.
  rewrite find_one_head. split.
  - intros H d Hd Hq. assert (d ∈ find q c) as Hin by by apply elem_of_find.
    destruct (find q c); [by apply elem_of_nil in Hin|done].
  - intros H. destruct (find q c) as [|d l] eqn:E; [done|].
    assert (d ∈ find q c) as [? ?]%elem_of_find by (rewrite E; left).
    naive_solver.
Qed.

Lemma find_one_is_Some q c : is_Some (find_one q c) ↔ ∃ d, d ∈ c ∧ qmatch q d = true.
Proof.
  split.
  - intros [d Hd]. exists d. by apply find_one_Some.
  - intros (d & Hd & Hq). destruct (find_one q c) eqn:E; [done|].
    rewrite find_one_None in E. naive_solver.
Qed.

(** ** Facts about the state *)

Lemma coll_insert s name c cl mi name' :
  coll {| db := <[name := c]> (db s); clock := cl; minted := mi |} name' =
  if decide (name = name') then c else coll s name'.
Proof.
  unfold coll. cbn [db]. rewrite lookup_insert. by repeat case_decide.
Qed.

(** ** Facts about the upsert of an action record *)

Lemma action_set_lookup act t (d : dict) k :
  k ≠ "action" → k ≠ "updated_at" → (action_set act t ∪ d) !! k = d !! k.
Proof.
  intros H1 H2. unfold action_set. rewrite lookup_union.
  rewrite lookup_insert_ne, lookup_singleton_ne by done.
  by destruct (d !! k).
Qed.

Lemma action_set_action act t (d : dict) :
  (action_set act t ∪ d) !! "action" = Some (VStr act).
Proof. unfold action_set. by rewrite lookup_union, lookup_insert_eq, union_Some_l. Qed.

Lemma action_set_updated_at act t (d : dict) :
  (action_set act t ∪ d) !! "updated_at" = Some (VDate t).
Proof.
  unfold action_set. rewrite lookup_union, lookup_insert_ne by done.
  by rewrite lookup_singleton_eq, union_Some_l.
Qed.

Lemma action_set_is_action a b act t d :
  is_action a b (action_set act t ∪ d) ↔ is_action a b d.
Proof. unfold is_action. by rewrite !action_set_lookup. Qed.

Lemma action_set_pair act t d : pair_of (action_set act t ∪ d) = pair_of d.
Proof. unfold pair_of. by rewrite !action_set_lookup. Qed.

Lemma action_new_is_action a b act t1 t2 fresh :
  is_action a b (action_new a b act t1 t2 fresh).
Proof. done. Qed.

Lemma action_new_action a b act t1 t2 fresh :
  action_new a b act t1 t2 fresh !! "action" = Some (VStr act).
Proof. done. Qed.

Lemma action_new_pair a b act t1 t2 fresh :
  pair_of (action_new a b act t1 t2 fresh) = (Some (VOid a), Some (VOid b)).
Proof. done. Qed.

(** The two ways the upsert goes: the first record of the pair is updated in
    place, or there is none and a new record is appended. *)
Lemma ledger_upsert_cases rt a b act s :
  (∃ i d, ledger s !! i = Some d ∧ is_action a b d ∧
          (∀ j d', ledger s !! j = Some d' → (j < i)%nat → ¬ is_action a b d') ∧
          ledger_upsert rt a b act s =
            <[i := action_set act (utcnow rt (clock s)) ∪ d]> (ledger s))
  ∨ ((∀ d, d ∈ ledger s → ¬ is_action a b d) ∧
     ledger_upsert rt a b act s =
       ledger s ++ [action_new a b act (utcnow rt (clock s))
                      (utcnow rt (S (clock s))) (new_oid rt (minted s))]).
Proof.
  unfold ledger_upsert, update_one.
  destruct (list_find _ (ledger s)) as [[i d]|] eqn:E.
  - left. apply list_find_Some in E as (Hi & Hd & Hlt).
    exists i, d. split_and!; [done|by apply qmatch_action| |done].
    intros j d' Hj Hlt' Hact. apply (Hlt j d' Hj Hlt'). by apply qmatch_action.
  - right. apply list_find_None in E. split; [|done].
    intros d Hd Hact. rewrite Forall_forall in E. apply (E d Hd).
    by apply qmatch_action.
Qed.

Lemma field_matches_action_set act t (d : dict) :
  field_matches (action_set act t ∪ d) "action" (VStr act) = true.
Proof. apply field_matches_Some, action_set_action. Qed.

(** The upsert leaves a record of the pair, carrying the new decision. *)
Lemma ledger_upsert_holds rt a b act s :
  ∃ d, d ∈ ledger_upsert rt a b act s ∧ is_action a b d ∧
       d !! "action" = Some (VStr act).
Proof.
  destruct (ledger_upsert_cases rt a b act s)
    as [(i & d & Hi & Hd & _ & ->)|[_ ->]].
  - eexists. split_and!.
    + apply list_elem_of_lookup. exists i. apply list_lookup_insert_eq.
      by eapply lookup_lt_Some.
    + by apply action_set_is_action.
    + apply action_set_action.
  - eexists. split_and!; [apply elem_of_app; right; left| |];
      [apply action_new_is_action|apply action_new_action].
Qed.

(** The upsert does not touch the records of other pairs. *)
Lemma ledger_upsert_frame rt a b act s d' :
  ¬ is_action a b d' →
  d' ∈ ledger_upsert rt a b act s ↔ d' ∈ ledger s.
Proof.
  intros Hd'.
  destruct (ledger_upsert_cases rt a b act s)
    as [(i & d & Hi & Hd & _ & ->)|[_ ->]].
  - rewrite !list_elem_of_lookup. split; intros [j Hj].
    + destruct (decide (i = j)) as [->|Hne].
      * rewrite list_lookup_insert_eq in Hj by by eapply lookup_lt_Some.
        simplify_eq. destruct Hd'. by apply action_set_is_action.
      * rewrite list_lookup_insert_ne in Hj by done. eauto.
    + exists j. rewrite list_lookup_insert_ne; [done|]. intros ->. naive_solver.
  - rewrite elem_of_app, list_elem_of_singleton. split; [|by left].
    intros [?| ->]; [done|]. destruct Hd'. apply action_new_is_action.
Qed.

Lemma is_action_inj a b a' b' d :
  is_action a b d → is_action a' b' d → a = a' ∧ b = b'.
Proof. unfold is_action. naive_solver. Qed.

(** ** Facts about [like_profile] *)

Lemma like_profile_run rt payload s a b :
  ObjectId_parse rt (LikeRequest.user_id payload) = Some a →
  ObjectId_parse rt (LikeRequest.target_id payload) = Some b →
  a ≠ b →
  ∃ s',
    like_profile rt payload s =
      (Ok {| matched :=
               if bool_decide (LikeRequest.action payload = "like")
               then bool_decide
                      (find_one (QEq {[ "user_id" := VOid b; "target_id" := VOid a;
                                        "action" := VStr "like" ]}) (ledger s') ≠ None)
               else false |}, s') ∧
    ledger s' = ledger_upsert rt a b (LikeRequest.action payload) s ∧
    (∀ name, name ≠ "match" → coll s' name = coll s name) ∧
    clock s' = S (S (clock s)).
Proof.
  intros Ha Hb Hne.
  unfold like_profile, bind, to_oid. rewrite Ha, Hb. cbn [ret].
  rewrite bool_decide_eq_false_2 by done.
  unfold now, db_update_one, db_find_one. cbn [clock minted db].
  unfold ledger_upsert, ledger, action_key, action_set.
  destruct (update_one _ _ _ _ _ _) as [[c mc] up] eqn:E.
  eexists. split; [|split_and!].
  - destruct (bool_decide (LikeRequest.action payload = "like")); cbn [ret];
      reflexivity.
  - cbn [fst]. apply coll_insert.
  - intros name Hname. rewrite coll_insert. by case_decide.
  - done.
Qed.

Lemma like_profile_self rt payload s a :
  ObjectId_parse rt (LikeRequest.user_id payload) = Some a →
  ObjectId_parse rt (LikeRequest.target_id payload) = Some a →
  like_profile rt payload s = (Raise (HTTPException 400 "Cannot like yourself"), s).
Proof.
  intros Ha Hb. unfold like_profile, bind, to_oid. rewrite Ha, Hb. cbn [ret].
  by rewrite bool_decide_eq_true_2.
Qed.

(** ** The mutual-match rule *)

(** C1. For users A ≠ B with no action between them in the ledger, A's like
    of B answers [matched = false] and B's like of A, sent next, answers
    [matched = true]: the reciprocal like is looked up after the caller's
    own like is written; both likes are then in the ledger. *)
Theorem like_back_is_match rt s sA sB A B :
  ObjectId_parse rt sA = Some A →
  ObjectId_parse rt sB = Some B →
  A ≠ B →
  (∀ d, d ∈ ledger s → ¬ is_action A B d ∧ ¬ is_action B A d) →
  let first := like_profile rt (like_request sA sB "like") s in
  let second := like_profile rt (like_request sB sA "like") first.2 in
  first.1 = Ok {| matched := false |} ∧
  second.1 = Ok {| matched := true |} ∧
  holds_like second.2 A B ∧ holds_like second.2 B A.
Proof.
  intros HA HB Hne Hnone. cbn zeta.
  destruct (like_profile_run rt (like_request sA sB "like") s A B)
    as (s1 & -> & Hl1 & _ & _); [done..|].
  cbn [fst snd].
  destruct (like_profile_run rt (like_request sB sA "like") s1 B A)
    as (s2 & -> & Hl2 & _ & _); [done..|].
  cbn [fst snd LikeRequest.action like_request] in *.
  rewrite !bool_decide_eq_true_2 by done.
  assert (holds_like s1 A B) as (dAB & HdAB & HactAB & HlikeAB).
  { destruct (ledger_upsert_holds rt A B "like" s) as (d & Hd & Hact & Hlike).
    exists d. rewrite Hl1. split; [done|]. split; [done|].
    by apply field_matches_Some. }
  assert (holds_like s2 A B) as H2AB.
  { exists dAB. split; [|done]. rewrite Hl2. apply ledger_upsert_frame; [|done].
    intros Hba. destruct (is_action_inj _ _ _ _ _ HactAB Hba). done. }
  assert (holds_like s2 B A) as H2BA.
  { destruct (ledger_upsert_holds rt B A "like" s1) as (d & Hd & Hact & Hlike).
    exists d. rewrite Hl2. split; [done|]. split; [done|].
    by apply field_matches_Some. }
  split_and!; [|f_equal|done|done].
  - do 2 f_equal. apply bool_decide_eq_false_2. intros Hsome. apply Hsome.
    apply find_one_None. intros d Hd Hq. apply qmatch_like in Hq as [Hba _].
    rewrite Hl1 in Hd. apply ledger_upsert_frame in Hd.
    + by apply (Hnone d Hd).
    + intros Hab. destruct (is_action_inj _ _ _ _ _ Hab Hba). done.
  - f_equal. apply bool_decide_eq_true_2.
    destruct H2AB as (d & Hd & Hlike). intros Hnone'.
    rewrite find_one_None in Hnone'. apply (Hnone' d Hd). by apply qmatch_like.
Qed.

Lemma like_back_is_match_witness :
  let s := initial in
  let first := like_profile sample_rt (like_request alice bob "like") s in
  let second := like_profile sample_rt (like_request bob alice "like") first.2 in
  first.1 = Ok {| matched := false |} ∧
  second.1 = Ok {| matched := true |} ∧
  holds_like second.2 10%N 11%N ∧ holds_like second.2 11%N 10%N.
Proof.
  apply (like_back_is_match sample_rt initial alice bob 10%N 11%N).
  - reflexivity.
  - reflexivity.
  - discriminate.
  - intros d Hd. apply elem_of_nil in Hd. destruct Hd.
Defined.

(** ** Self-directed actions *)

(** C2. A like or a dislike whose actor and target are the same user is
    rejected with status 400, "Cannot like yourself", whatever the decision
    value, and the state (ledger included) is the one before the call. *)
Theorem like_yourself_rejected rt s payload A :
  ObjectId_parse rt (LikeRequest.user_id payload) = Some A →
  ObjectId_parse rt (LikeRequest.target_id payload) = Some A →
  like_profile rt payload s =
    (Raise (HTTPException 400 "Cannot like yourself"), s) ∧
  ledger (like_profile rt payload s).2 = ledger s.
Proof.
  intros HA HB. rewrite (like_profile_self rt payload s A) by done. done.
Qed.

Lemma like_yourself_rejected_witness :
  like_profile sample_rt (like_request alice alice "dislike") initial =
    (Raise (HTTPException 400 "Cannot like yourself"), initial) ∧
  ledger (like_profile sample_rt (like_request alice alice "dislike") initial).2 =
    ledger initial.
Proof.
  apply (like_yourself_rejected sample_rt initial
           (like_request alice alice "dislike") 10%N); reflexivity.
Defined.

(** ** Which collections a handler writes *)

Section frame.
Context {A B : Type} (name : string).

Lemma preserves_ret (a : A) : preserves name (ret a).
Proof. done. Qed.

Lemma preserves_raise e : preserves name (raise (A := A) e).
Proof. done. Qed.

Lemma preserves_bind (m : M A) (k : A → M B) :
  preserves name m → (∀ a, preserves name (k a)) → preserves name (bind m k).
Proof.
  intros Hm Hk s. unfold bind. specialize (Hm s).
  destruct (m s) as [[a|e] s']; [|done]. cbn [snd] in Hm.
  by rewrite Hk.
Qed.

Lemma read_only_preserves (m : M A) : read_only m → preserves name m.
Proof. intros H s. by rewrite H. Qed.

Lemma read_only_ret (a : A) : read_only (ret a).
Proof. done. Qed.

Lemma read_only_raise e : read_only (raise (A := A) e).
Proof. done. Qed.

Lemma read_only_bind (m : M A) (k : A → M B) :
  read_only m → (∀ a, read_only (k a)) → read_only (bind m k).
Proof.
  intros Hm Hk s. unfold bind. specialize (Hm s).
  destruct (m s) as [[a|e] s']; cbn [snd] in Hm; subst; [apply Hk|done].
Qed.
End frame.

Lemma preserves_now rt name : preserves name (now rt).
Proof. done. Qed.

Lemma read_only_to_oid rt id_str : read_only (to_oid rt id_str).
Proof. unfold to_oid. by destruct (ObjectId_parse rt id_str). Qed.

Lemma read_only_getitem d k : read_only (getitem d k).
Proof. unfold getitem. by destruct (d !! k). Qed.

Lemma read_only_find name q : read_only (db_find name q).
Proof. done. Qed.

Lemma read_only_find_one name q : read_only (db_find_one name q).
Proof. done. Qed.

Lemma preserves_update_one rt name name' flt set soi upsert :
  name' ≠ name → preserves name (db_update_one rt name' flt set soi upsert).
Proof.
  intros Hne s. unfold db_update_one.
  destruct (update_one _ _ _ _ _ _) as [[c mc] up]. cbn [snd].
  rewrite coll_insert. by case_decide.
Qed.

Lemma preserves_insert_one rt name name' d :
  name' ≠ name → preserves name (db_insert_one rt name' d).
Proof.
  intros Hne s. unfold db_insert_one, set_coll.
  destruct (d !! "_id"); cbn [snd]; rewrite coll_insert; by case_decide.
Qed.

Ltac read_only_step :=
  first
    [ apply read_only_ret | apply read_only_raise | apply read_only_to_oid
    | apply read_only_getitem | apply read_only_find | apply read_only_find_one
    | apply read_only_bind; [|intros ?]
    | match goal with
      | |- read_only (if ?b then _ else _) => destruct b
      | |- read_only (match ?x with _ => _ end) => destruct x
      end ].

Ltac frame_step :=
  first
    [ apply preserves_ret | apply preserves_raise | apply preserves_now
    | apply preserves_update_one; congruence
    | apply preserves_insert_one; congruence
    | apply preserves_bind; [|intros ?]
    | match goal with
      | |- preserves _ (if ?b then _ else _) => destruct b
      | |- preserves _ (match ?x with _ => _ end) => destruct x
      end
    | apply read_only_preserves; read_only_step ].

Lemma read_only_collect_acted ms acted_ids : read_only (collect_acted ms acted_ids).
Proof.
  revert acted_ids. induction ms as [|m ms IH]; intros acted_ids; cbn [collect_acted].
  - read_only_step.
  - unfold set_add. repeat read_only_step. apply IH.
Qed.

Lemma read_only_first_unacted rt acted_ids candidates :
  read_only (first_unacted rt acted_ids candidates).
Proof.
  induction candidates as [|cand candidates IH]; cbn [first_unacted].
  - read_only_step.
  - unfold set_not_in. repeat read_only_step. apply IH.
Qed.

Lemma read_only_next_profile rt user_id : read_only (next_profile rt user_id).
Proof.
  unfold next_profile. repeat read_only_step.
  - apply read_only_collect_acted.
  - apply read_only_first_unacted.
Qed.

Lemma read_only_mutual_peers rt user_oid my_likes peers :
  read_only (mutual_peers rt user_oid my_likes peers).
Proof.
  revert peers. induction my_likes as [|like my_likes IH]; intros peers;
    cbn [mutual_peers].
  - read_only_step.
  - repeat read_only_step; apply IH.
Qed.

Lemma read_only_list_chats rt user_id : read_only (list_chats rt user_id).
Proof. unfold list_chats. repeat read_only_step. apply read_only_mutual_peers. Qed.

Lemma read_only_get_messages rt user_id peer_id limit :
  read_only (get_messages rt user_id peer_id limit).
Proof. unfold get_messages. repeat read_only_step. Qed.

Lemma preserves_create_or_complete_profile rt details name :
  name ≠ "profile" → preserves name (create_or_complete_profile rt details).
Proof. intros H. unfold create_or_complete_profile. repeat frame_step. Qed.

Lemma preserves_update_profile rt payload name :
  name ≠ "profile" → preserves name (update_profile rt payload).
Proof. intros H. unfold update_profile. repeat frame_step. Qed.

Lemma preserves_send_message rt payload name :
  name ≠ "message" → preserves name (send_message rt payload).
Proof. intros H. unfold send_message. repeat frame_step. Qed.

Lemma preserves_like_profile rt payload name :
  name ≠ "match" → preserves name (like_profile rt payload).
Proof. intros H. unfold like_profile. repeat frame_step. Qed.

(** ** The ledger along a sequence of requests *)

Lemma run_snoc rt reqs r s : run rt (reqs ++ [r]) s = handle rt r (run rt reqs s).
Proof. unfold run. by rewrite foldl_app. Qed.

Lemma run_app rt reqs1 reqs2 s :
  run rt (reqs1 ++ reqs2) s = run rt reqs2 (run rt reqs1 s).
Proof. unfold run. by rewrite foldl_app. Qed.

Lemma like_profile_invalid rt payload s :
  ObjectId_parse rt (LikeRequest.user_id payload) = None ∨
  ObjectId_parse rt (LikeRequest.target_id payload) = None →
  like_profile rt payload s =
    (Raise (HTTPException 400 "Invalid id format"), s).
Proof.
  unfold like_profile, bind, to_oid.
  destruct (ObjectId_parse rt (LikeRequest.user_id payload)); [|done].
  destruct (ObjectId_parse rt (LikeRequest.target_id payload)); [|done].
  naive_solver.
Qed.

(** A request leaves the ledger alone or upserts one action record of two
    distinct users. *)
Lemma handle_ledger rt r s :
  ledger (handle rt r s) = ledger s ∨
  ∃ a b act, a ≠ b ∧ ledger (handle rt r s) = ledger_upsert rt a b act s.
Proof.
  destruct r as [details|payload|user_id|payload|user_id|user_id peer_id limit|payload];
    cbn [handle].
  - left. by apply preserves_create_or_complete_profile.
  - left. by apply preserves_update_profile.
  - left. by rewrite read_only_next_profile.
  - destruct (ObjectId_parse rt (LikeRequest.user_id payload)) as [a|] eqn:Ha;
      [|left; rewrite like_profile_invalid; auto].
    destruct (ObjectId_parse rt (LikeRequest.target_id payload)) as [b|] eqn:Hb;
      [|left; rewrite like_profile_invalid; auto].
    destruct (decide (a = b)) as [->|Hne].
    + left. by rewrite (like_profile_self rt payload s b).
    + right. exists a, b, (LikeRequest.action payload). split; [done|].
      destruct (like_profile_run rt payload s a b) as (s' & -> & Hl & _); done.
  - left. by rewrite read_only_list_chats.
  - left. by rewrite read_only_get_messages.
  - left. by apply preserves_send_message.
Qed.

Lemma pair_of_is_action a b d :
  pair_of d = (Some (VOid a), Some (VOid b)) ↔ is_action a b d.
Proof.
  unfold pair_of, is_action. split; [by intros [= ? ?]|intros [H1 H2]; by rewrite H1, H2].
Qed.

Lemma ledger_upsert_NoDup rt a b act s :
  NoDup (pair_of <$> ledger s) → NoDup (pair_of <$> ledger_upsert rt a b act s).
Proof.
  intros Hnd.
  destruct (ledger_upsert_cases rt a b act s)
    as [(i & d & Hi & Hd & _ & ->)|[Hnone ->]].
  - rewrite list_fmap_insert, action_set_pair, list_insert_id; [done|].
    by rewrite list_lookup_fmap, Hi.
  - rewrite fmap_app. apply NoDup_app. split_and!; [done| |apply NoDup_singleton].
    intros p Hp Hin. apply list_elem_of_fmap in Hp as (d & -> & Hd).
    apply list_elem_of_singleton in Hin. rewrite action_new_pair in Hin.
    apply pair_of_is_action in Hin. by apply (Hnone d).
Qed.

(** Uniqueness invariant: along any sequence of requests from the empty
    store, no two action records have the same actor and target. *)
Lemma ledger_NoDup rt reqs : NoDup (pair_of <$> ledger (run rt reqs initial)).
Proof.
  induction reqs as [|r reqs IH] using rev_ind.
  - apply NoDup_nil_2.
  - rewrite run_snoc.
    destruct (handle_ledger rt r (run rt reqs initial)) as [->|(a & b & act & _ & ->)];
      [done|by apply ledger_upsert_NoDup].
Qed.

Lemma NoDup_filter_action (l : collection) a b :
  NoDup (pair_of <$> l) → (length (filter (is_action a b) l) ≤ 1)%nat.
Proof.
  induction l as [|d l IH]; [cbn; lia|].
  rewrite fmap_cons, NoDup_cons. intros [Hd Hl]. rewrite filter_cons.
  destruct (decide (is_action a b d)) as [Hact|]; [|by apply IH].
  destruct (filter (is_action a b) l) as [|d' l'] eqn:E; [cbn; lia|].
  assert (d' ∈ filter (is_action a b) l) as [Hact' Hin]%list_elem_of_filter
    by (rewrite E; left).
  destruct Hd. apply list_elem_of_fmap. exists d'. split; [|done].
  apply pair_of_is_action in Hact, Hact'. congruence.
Qed.

Lemma ledger_upsert_in_place rt a b act s i old :
  NoDup (pair_of <$> ledger s) →
  ledger s !! i = Some old → is_action a b old →
  ledger_upsert rt a b act s =
    <[i := action_set act (utcnow rt (clock s)) ∪ old]> (ledger s).
Proof.
  intros Hnd Hi Hold.
  destruct (ledger_upsert_cases rt a b act s)
    as [(i' & d & Hi' & Hd & _ & ->)|[Hnone _]].
  - assert (i = i') as <-.
    { eapply NoDup_lookup; [done| |]; rewrite list_lookup_fmap.
      - by rewrite Hi.
      - rewrite Hi'. cbn. f_equal.
        apply pair_of_is_action in Hold, Hd. congruence. }
    congruence.
  - destruct (Hnone old); [|done]. by eapply list_elem_of_lookup_2.
Qed.

Lemma handle_like rt s sA sB act A B :
  ObjectId_parse rt sA = Some A → ObjectId_parse rt sB = Some B → A ≠ B →
  let s' := handle rt (PostProfilesLike (like_request sA sB act)) s in
  ledger s' = ledger_upsert rt A B act s ∧
  (∀ name, name ≠ "match" → coll s' name = coll s name).
Proof.
  intros HA HB Hne. cbn [handle].
  destruct (like_profile_run rt (like_request sA sB act) s A B)
    as (s' & -> & Hl & Hframe & _); done.
Qed.

(** ** One action record per ordered pair *)

(** C3. Along any sequence of requests from the empty store the ledger has
    at most one action record per ordered pair of users.  A further decision
    of A on B replaces the record of (A,B) where it stands: [action] and
    [updated_at] take the new values and every other field, [created_at]
    included, keeps its value.  After two likes of A on B there is exactly one
    record for (A,B) and its decision is "like". *)
Theorem one_record_per_pair rt reqs sA sB A B :
  ObjectId_parse rt sA = Some A →
  ObjectId_parse rt sB = Some B →
  A ≠ B →
  let s := run rt reqs initial in
  (∀ a b, (length (filter (is_action a b) (ledger s)) ≤ 1)%nat) ∧
  (∀ act i old,
     ledger s !! i = Some old → is_action A B old →
     let s' := handle rt (PostProfilesLike (like_request sA sB act)) s in
     ∃ new,
       ledger s' = <[i := new]> (ledger s) ∧
       new !! "action" = Some (VStr act) ∧
       new !! "updated_at" = Some (VDate (utcnow rt (clock s))) ∧
       new !! "created_at" = old !! "created_at" ∧
       (∀ k, k ≠ "action" → k ≠ "updated_at" → new !! k = old !! k)) ∧
  (let like := PostProfilesLike (like_request sA sB "like") in
   ∃ d, filter (is_action A B) (ledger (run rt [like; like] s)) = [d] ∧
        d !! "action" = Some (VStr "like")).
Proof.
  intros HA HB Hne s. split_and!.
  - intros a b. apply NoDup_filter_action, ledger_NoDup.
  - intros act i old Hi Hold s'.
    destruct (handle_like rt s sA sB act A B) as [Hl _]; [done..|].
    exists (action_set act (utcnow rt (clock s)) ∪ old). split_and!.
    + fold s' in Hl. rewrite Hl.
      by apply ledger_upsert_in_place; [apply ledger_NoDup|..].
    + apply action_set_action.
    + apply action_set_updated_at.
    + by apply action_set_lookup.
    + intros k ? ?. by apply action_set_lookup.
  - intros like. set (s1 := handle rt like s).
    assert (run rt [like; like] s = handle rt like s1) as -> by done.
    destruct (handle_like rt s1 sA sB "like" A B) as [Hl _]; [done..|].
    fold like in Hl. rewrite Hl.
    destruct (ledger_upsert_holds rt A B "like" s1) as (d & Hd & Hact & Hlike).
    exists d. split; [|done].
    assert (length (filter (is_action A B) (ledger_upsert rt A B "like" s1)) ≤ 1)%nat
      as Hlen.
    { apply NoDup_filter_action, ledger_upsert_NoDup.
      subst s1 s. rewrite <- run_snoc. apply ledger_NoDup. }
    assert (d ∈ filter (is_action A B) (ledger_upsert rt A B "like" s1)) as Hin
      by by apply list_elem_of_filter.
    destruct (filter _ _) as [|d1 [|d2 l]]; cbn in Hlen; [|by apply list_elem_of_singleton in Hin; subst|lia].
    by apply elem_of_nil in Hin.
Qed.

Lemma one_record_per_pair_witness :
  let s := run sample_rt [PostProfilesLike (like_request alice bob "dislike")] initial in
  (∀ a b, (length (filter (is_action a b) (ledger s)) ≤ 1)%nat) ∧
  (∀ act i old,
     ledger s !! i = Some old → is_action 10%N 11%N old →
     let s' := handle sample_rt (PostProfilesLike (like_request alice bob act)) s in
     ∃ new,
       ledger s' = <[i := new]> (ledger s) ∧
       new !! "action" = Some (VStr act) ∧
       new !! "updated_at" = Some (VDate (utcnow sample_rt (clock s))) ∧
       new !! "created_at" = old !! "created_at" ∧
       (∀ k, k ≠ "action" → k ≠ "updated_at" → new !! k = old !! k)) ∧
  (let like := PostProfilesLike (like_request alice bob "like") in
   ∃ d, filter (is_action 10%N 11%N) (ledger (run sample_rt [like; like] s)) = [d] ∧
        d !! "action" = Some (VStr "like")).
Proof.
  apply (one_record_per_pair sample_rt
           [PostProfilesLike (like_request alice bob "dislike")] alice bob 10%N 11%N).
  - reflexivity.
  - reflexivity.
  - discriminate.
Defined.

(** ** Facts about [serialize] *)

Lemma serialize_lookup rt (d : dict) k :
  d ≠ ∅ → k ≠ "id" → k ≠ "_id" →
  ∃ r, serialize rt (Some d) = Some r ∧ r !! k = isoformat_value rt <$> d !! k.
Proof.
  intros Hd Hid H_id. unfold serialize, dict_truthy.
  rewrite bool_decide_eq_false_2 by done. cbn [negb].
  eexists. split; [done|]. rewrite lookup_fmap.
  destruct (truthy _).
  - by rewrite lookup_insert_ne, lookup_delete_ne.
  - by rewrite lookup_delete_ne.
Qed.

Lemma isoformat_value_oid rt v o : isoformat_value rt v = VOid o ↔ v = VOid o.
Proof. by destruct v. Qed.

(** A serialized document shows user [b] exactly when the document is
    [b]'s. *)
Lemma shows_serialize rt (d : dict) b :
  shows b (serialize rt (Some d)) ↔ d !! "user_id" = Some (VOid b).
Proof.
  destruct (decide (d = ∅)) as [->|Hd].
  - split; [by intros (r & ? & ?)|by rewrite lookup_empty].
  - destruct (serialize_lookup rt d "user_id") as (r & Hr & Hk); [done..|].
    unfold shows. rewrite Hr. split.
    + intros (r' & [= <-] & Hu). rewrite Hu in Hk.
      destruct (d !! "user_id") as [v|]; [|done]. cbn in Hk.
      injection Hk as Hk. symmetry in Hk. apply isoformat_value_oid in Hk.
      by subst.
    + intros Hu. exists r. split; [done|]. by rewrite Hk, Hu.
Qed.

Lemma shows_no_more_profiles b : ¬ shows b (Some no_more_profiles).
Proof. by intros (d & [= <-] & Hu). Qed.

(** What [serialize] makes of a document that is not empty. *)
Lemma serialize_rendering rt (doc : dict) :
  doc ≠ ∅ → rendering rt doc (serialize rt (Some doc)).
Proof.
  intros Hdoc. unfold serialize, dict_truthy.
  rewrite bool_decide_eq_false_2 by done. cbn [negb].
  eexists. split; [reflexivity|]. split_and!.
  - rewrite lookup_fmap. destruct (truthy _).
    + by rewrite lookup_insert_ne, lookup_delete_eq.
    + by rewrite lookup_delete_eq.
  - rewrite lookup_fmap. destruct (truthy _).
    + by rewrite lookup_insert_eq.
    + by rewrite lookup_delete_ne.
  - intros k Hid H_id. rewrite lookup_fmap. destruct (truthy _).
    + by rewrite lookup_insert_ne, lookup_delete_ne.
    + by rewrite lookup_delete_ne.
Qed.

Lemma serialize_rendering_key rt (doc : dict) k v :
  doc !! k = Some v → rendering rt doc (serialize rt (Some doc)).
Proof.
  intros H. apply serialize_rendering. intros ->. by rewrite lookup_empty in H.
Qed.

(** ** Facts about sorting and truncation *)

#[global] Instance key_le_trans : Transitive key_le.
Proof. intros x y z. unfold key_le. lia. Qed.

#[global] Instance key_le_total : Total key_le.
Proof. intros x y. unfold key_le. lia. Qed.

#[global] Instance doc_le_trans k dir : Transitive (doc_le k dir).
Proof. intros x y z. destruct dir; cbn; intros; by etrans. Qed.

#[global] Instance doc_le_total k dir : Total (doc_le k dir).
Proof. intros x y. destruct dir; cbn; apply (total key_le). Qed.

Lemma cursor_sort_Permutation k dir c : cursor_sort k dir c ≡ₚ c.
Proof. apply merge_sort_Permutation. Qed.

Lemma cursor_sort_sorted k dir c : StronglySorted (doc_le k dir) (cursor_sort k dir c).
Proof. apply StronglySorted_merge_sort; apply _. Qed.

Lemma elem_of_cursor_sort k dir c d : d ∈ cursor_sort k dir c ↔ d ∈ c.
Proof. by rewrite cursor_sort_Permutation. Qed.

Lemma key_le_dates t1 t2 : key_le (Some (VDate t1)) (Some (VDate t2)) ↔ t1 ≤ t2.
Proof. unfold key_le. cbn. lia. Qed.

(** ** Facts about [next_profile] *)

Lemma py_get_Some (d : dict) k v : d !! k = Some v → py_get d k = v.
Proof. intros H. unfold py_get. by rewrite H. Qed.

Lemma collect_acted_Ok ms acc s acted :
  (collect_acted ms acc s).1 = Ok acted →
  ∀ v, v ∈ acted ↔ v ∈ acc ∨ ∃ m, m ∈ ms ∧ v = py_get m "target_id".
Proof.
  revert acc. induction ms as [|m ms IH]; intros acc; cbn [collect_acted].
  - intros [= <-] v. split; [by left|]. intros [?|(m & Hm & _)]; [done|].
    by apply elem_of_nil in Hm.
  - unfold bind, set_add. destruct (hashable _); [|done]. cbn [ret].
    intros H v. rewrite (IH _ H v), elem_of_cons. split.
    + intros [[->|?]|(m' & Hm' & ->)]; [right; exists m; split; [left|done]|by left|].
      right. exists m'. split; [by right|done].
    + intros [?|(m' & [->|Hm']%elem_of_cons & ->)]; [left; by right|left; by left|].
      right. by exists m'.
Qed.


Lemma first_unacted_Ok rt acted cands s r :
  (first_unacted rt acted cands s).1 = Ok r →
  (r = Some no_more_profiles ∧
   ∀ c, c ∈ cands → ∃ u, c !! "user_id" = Some u ∧ u ∈ acted) ∨
  (∃ pre cand post u,
     cands = pre ++ cand :: post ∧ r = serialize rt (Some cand) ∧
     cand !! "user_id" = Some u ∧ (u ∉ acted) ∧
     (∀ c, c ∈ pre → ∃ u', c !! "user_id" = Some u' ∧ u' ∈ acted)).
Proof.
  induction cands as [|cand cands IH]; cbn [first_unacted].
  - intros [= <-]. left. split; [done|]. intros c Hc. by apply elem_of_nil in Hc.
  - unfold bind, getitem, set_not_in.
    destruct (cand !! "user_id") as [u|] eqn:Hu; [|done]. cbn [ret].
    destruct (hashable u); [|done]. cbn [ret].
    destruct (decide (u ∉ acted)) as [Hfresh|Hacted].
    + rewrite bool_decide_eq_true_2 by done. intros [= <-]. right.
      exists [], cand, cands, u. split_and!; [done..|].
      intros c Hc. by apply elem_of_nil in Hc.
    + rewrite bool_decide_eq_false_2 by done. intros H.
      assert (u ∈ acted) by by apply dec_stable.
      destruct (IH H) as [[-> Hall]|(pre & c' & post & u' & -> & -> & ? & ? & Hpre)].
      * left. split; [done|]. intros c [->|?]%elem_of_cons; eauto.
      * right. exists (cand :: pre), c', post, u'. split_and!; [done..|].
        intros c [->|?]%elem_of_cons; eauto.
Qed.


#[global] Instance key_le_refl : Reflexive key_le.
Proof. intros x. unfold key_le. lia. Qed.

Lemma qmatch_by_user a (d : dict) :
  qmatch (QEq {[ "user_id" := VOid a ]}) d = true ↔ d !! "user_id" = Some (VOid a).
Proof. by rewrite qmatch_singleton, field_matches_oid. Qed.

Lemma qmatch_not_user a (d : dict) :
  qmatch (QNe "user_id" (VOid a)) d = true ↔ d !! "user_id" ≠ Some (VOid a).
Proof.
  cbn [qmatch]. rewrite negb_true_iff, <- not_true_iff_false.
  by rewrite field_matches_oid.
Qed.

(** What [next_profile] does once the caller's identifier is parsed. *)
Lemma next_profile_unfold rt sA s A :
  ObjectId_parse rt sA = Some A →
  next_profile rt sA s =
    match collect_acted (find (QEq {[ "user_id" := VOid A ]}) (ledger s)) [] s with
    | (Ok acted, _) =>
        first_unacted rt acted
          (cursor_sort "updated_at" DESCENDING
             (find (QNe "user_id" (VOid A)) (profiles s))) s
    | (Raise e, _) => (Raise e, s)
    end.
Proof.
  intros HA. unfold next_profile, bind, to_oid. rewrite HA. cbn [ret db_find].
  pose proof (read_only_collect_acted
                (find (QEq {[ "user_id" := VOid A ]}) (coll s "match")) [] s) as Hro.
  unfold ledger, profiles.
  destruct (collect_acted _ _ _) as [[acted|e] s']; cbn [snd] in Hro; by subst.
Qed.

(** The answer of [next_profile], whenever it gives one: the sentinel when
    the caller has no candidate, else a candidate that sorts last on
    [updated_at] among the caller's candidates. *)
Lemma next_profile_Ok rt sA s A r :
  ObjectId_parse rt sA = Some A →
  (next_profile rt sA s).1 = Ok r →
  (r = Some no_more_profiles ∧ ∀ p, ¬ candidate s A p) ∨
  (∃ best, candidate s A best ∧ r = serialize rt (Some best) ∧
           ∀ p, candidate s A p → key_le (p !! "updated_at") (best !! "updated_at")).
Proof.
  intros HA. rewrite (next_profile_unfold rt sA s A HA).
  destruct (collect_acted _ _ _) as [[acted|e] s'] eqn:Hacted; [|done].
  assert (∀ u, u ∈ acted ↔
            ∃ m, m ∈ ledger s ∧ m !! "user_id" = Some (VOid A) ∧
                 u = py_get m "target_id") as Hin.
  { intros u. rewrite (collect_acted_Ok _ [] s acted) by by rewrite Hacted.
    split.
    - intros [Hnil|(m & [Hm Hq]%elem_of_find & ->)]; [by apply elem_of_nil in Hnil|].
      exists m. by apply qmatch_by_user in Hq.
    - intros (m & Hm & Hu & ->). right. exists m. split; [|done].
      apply elem_of_find. split; [done|]. by apply qmatch_by_user. }
  assert (∀ p, decided_on s A p ↔ ∃ u, p !! "user_id" = Some u ∧ u ∈ acted) as Hdec.
  { intros p. unfold decided_on. setoid_rewrite Hin. naive_solver. }
  assert (∀ p, candidate s A p →
            p ∈ cursor_sort "updated_at" DESCENDING
                  (find (QNe "user_id" (VOid A)) (profiles s))) as Hcand.
  { intros p (Hp & Hne & _). apply elem_of_cursor_sort, elem_of_find.
    split; [done|]. by apply qmatch_not_user. }
  pose proof (cursor_sort_sorted "updated_at" DESCENDING
                (find (QNe "user_id" (VOid A)) (profiles s))) as Hsorted.
  intros H.
  apply first_unacted_Ok in H
    as [[-> Hall]|(pre & best & post & u & Heq & -> & Hu & Hfresh & Hpre)].
  - left. split; [done|]. intros p Hp.
    destruct (Hall p (Hcand p Hp)) as (u & Hu & Hacted').
    destruct Hp as (_ & _ & _ & Hnot). apply Hnot, Hdec. eauto.
  - right. exists best.
    assert (best ∈ find (QNe "user_id" (VOid A)) (profiles s))
      as [Hb1 Hb2]%elem_of_find.
    { apply (elem_of_cursor_sort "updated_at" DESCENDING). rewrite Heq.
      apply elem_of_app. right. left. }
    split_and!; [split_and!|done|].
    + done.
    + by apply qmatch_not_user.
    + by rewrite Hu.
    + intros (u' & Hu' & Hacted')%Hdec. congruence.
    + intros p Hp. specialize (Hcand p Hp). rewrite Heq in Hcand, Hsorted.
      apply elem_of_app in Hcand as [Hin'|[->|Hin']%elem_of_cons].
      * destruct (Hpre p Hin') as (u' & Hu' & Hacted').
        destruct Hp as (_ & _ & _ & Hnot). destruct Hnot. apply Hdec. eauto.
      * done.
      * apply StronglySorted_app_1_r, StronglySorted_cons in Hsorted as [Hall _].
        rewrite Forall_forall in Hall. apply (Hall p Hin').
Qed.


(** An action record of a pair stays in the ledger, whatever is requested
    next. *)
Lemma action_stays rt a b reqs s :
  (∃ m, m ∈ ledger s ∧ is_action a b m) →
  ∃ m, m ∈ ledger (run rt reqs s) ∧ is_action a b m.
Proof.
  intros H. induction reqs as [|r reqs IH] using rev_ind; [done|].
  rewrite run_snoc. destruct IH as (m & Hm & Hact).
  destruct (handle_ledger rt r (run rt reqs s)) as [->|(a' & b' & act & _ & ->)];
    [by exists m|].
  destruct (decide (is_action a' b' m)) as [Hact'|Hact'].
  - destruct (is_action_inj _ _ _ _ _ Hact Hact') as [-> ->].
    destruct (ledger_upsert_holds rt a' b' act (run rt reqs s)) as (d & ? & ? & _).
    by exists d.
  - exists m. split; [|done]. by apply ledger_upsert_frame.
Qed.

(** ** Discovery: exclusion *)

(** C4. Whatever the store holds, an answer of [next_profile] to A shows
    neither A's own profile nor the profile of a user on whom A has an
    action record, like or dislike.  After a like or dislike of A on B and
    any further requests (updates of B's profile among them), no answer of
    [next_profile] to A shows B's profile. *)
Theorem next_profile_excludes rt s sA sB A B :
  ObjectId_parse rt sA = Some A →
  ObjectId_parse rt sB = Some B →
  (∀ r, (next_profile rt sA s).1 = Ok r →
        ¬ shows A r ∧
        ∀ b, (∃ m, m ∈ ledger s ∧ is_action A b m) → ¬ shows b r) ∧
  (∀ act reqs r,
     let s1 := handle rt (PostProfilesLike (like_request sA sB act)) s in
     (next_profile rt sA (run rt reqs s1)).1 = Ok r → ¬ shows B r).
Proof.
  intros HA HB.
  assert (∀ s r, (next_profile rt sA s).1 = Ok r →
            ¬ shows A r ∧
            ∀ b, (∃ m, m ∈ ledger s ∧ is_action A b m) → ¬ shows b r) as Hex.
  { clear s. intros s r Hr.
    destruct (next_profile_Ok rt sA s A r HA Hr)
      as [[-> _]|(best & (Hin & Hself & Hsome & Hnot) & -> & _)].
    - split; [|intros b _]; apply shows_no_more_profiles.
    - split.
      + by intros ?%shows_serialize.
      + intros b (m & Hm & Hu & Ht) Hb%shows_serialize. apply Hnot.
        exists m. split_and!; [done..|].
        by rewrite (py_get_Some _ _ _ Ht). }
  split; [apply Hex|].
  intros act reqs r s1 Hr. destruct (Hex _ _ Hr) as [Hself Hothers].
  destruct (decide (A = B)) as [<-|Hne]; [done|].
  apply Hothers, action_stays.
  destruct (handle_like rt s sA sB act A B) as [Hl _]; [done..|].
  fold s1 in Hl. rewrite Hl.
  destruct (ledger_upsert_holds rt A B act s) as (d & ? & ? & _). by exists d.
Qed.

(** ** Discovery: ordering *)


(** ** Well-formedness along a sequence of requests *)

Lemma update_one_Forall (P : dict → Prop) flt set soi upsert fresh c :
  Forall P c →
  (∀ d, P d → P (set ∪ d)) →
  (∀ i, P (set ∪ (soi ∪ flt)) ∧ P (<["_id" := i]> (set ∪ (soi ∪ flt)))) →
  Forall P (update_one flt set soi upsert fresh c).1.1.
Proof.
  intros Hc Hset Hnew. unfold update_one.
  destruct (list_find _ c) as [[i d]|] eqn:E; cbn [fst].
  - apply list_find_Some in E as (Hi & _ & _).
    apply Forall_insert; [done|]. apply Hset.
    rewrite Forall_forall in Hc. apply Hc. by eapply list_elem_of_lookup_2.
  - destruct upsert; cbn [fst]; [|done].
    apply Forall_app. split; [done|]. apply Forall_singleton.
    destruct (Hnew (VOid fresh)). by destruct (_ !! "_id").
Qed.

Lemma ledger_upsert_well_formed rt a b act s :
  Forall (has_oid "target_id") (ledger s) →
  Forall (has_oid "target_id") (ledger_upsert rt a b act s).
Proof.
  intros H. apply update_one_Forall; [done| |].
  - intros d (t & Ht). exists t. by rewrite action_set_lookup.
  - intros i. split; by exists b.
Qed.

Lemma create_profile_well_formed rt details s :
  Forall (has_oid "user_id") (profiles s) →
  Forall (has_oid "user_id") (profiles (create_or_complete_profile rt details s).2).
Proof.
  intros H. unfold create_or_complete_profile, bind, to_oid.
  destruct (ObjectId_parse rt (ProfileDetails.user_id details)) as [u|]; [|done].
  cbn [ret now db_find_one]. unfold db_update_one. cbn [clock minted db].
  match goal with
  | |- context [update_one ?f ?st ?so ?up ?fr ?c] =>
      pose proof (update_one_Forall (has_oid "user_id") f st so up fr c) as Hupd;
      destruct (update_one f st so up fr c) as [[c' mc] ui]
  end.
  cbn [snd fst ret] in *. unfold profiles. rewrite coll_insert.
  case_decide; [|done].
  apply Hupd; [exact H| |].
  - intros d _. exists u.
    by rewrite lookup_union, lookup_insert_eq, union_Some_l.
  - intros i. split; by exists u.
Qed.

Lemma changes_user_id {A1 A2 A3 A4 A5} (f1 : A1 → value) (f2 : A2 → value)
    (f3 : A3 → value) (f4 : A4 → value) (f5 : A5 → value) o1 o2 o3 o4 o5 t :
  (<["updated_at" := VDate t]>
     (change "nickname" f1 o1 (change "bio" f2 o2 (change "tags" f3 o3
        (change "photos" f4 o4 (change "age" f5 o5 ∅)))))) !! "user_id" = None.
Proof. by destruct o1, o2, o3, o4, o5. Qed.

Lemma update_profile_well_formed rt payload s :
  Forall (has_oid "user_id") (profiles s) →
  Forall (has_oid "user_id") (profiles (update_profile rt payload s).2).
Proof.
  intros H. unfold update_profile, bind, to_oid.
  destruct (ObjectId_parse rt (ProfileUpdate.user_id payload)) as [u|]; [|done].
  cbn [ret]. destruct (negb (dict_truthy _)); [done|].
  cbn [now]. unfold db_update_one. cbn [clock minted db].
  match goal with
  | |- context [update_one ?f ?st ?so ?up ?fr ?c] =>
      pose proof (update_one_Forall (has_oid "user_id") f st so up fr c) as Hupd;
      assert ((update_one f st so up fr c).1.1 = c ∨
              (update_one f st so up fr c).1.2 = 1) as Hmc
        by (unfold update_one; destruct (list_find _ c) as [[? ?]|]; auto);
      destruct (update_one f st so up fr c) as [[c' mc] ui]
  end.
  cbn [snd fst] in *.
  assert (Forall (has_oid "user_id") c') as Hc'.
  { destruct Hmc as [->|_]; [exact H|]. apply Hupd; [exact H| |].
    - intros d (u' & Hu'). exists u'.
      rewrite lookup_union, changes_user_id. by rewrite Hu'.
    - intros i. split; exists u.
      + by rewrite lookup_union, changes_user_id.
      + rewrite lookup_insert_ne by done.
        by rewrite lookup_union, changes_user_id. }
  destruct (bool_decide (mc = 0)); cbn [raise ret snd db_find_one];
    unfold profiles; rewrite coll_insert; by case_decide.
Qed.

Lemma handle_well_formed rt r s : well_formed s → well_formed (handle rt r s).
Proof.
  intros [Hl Hp]. split.
  - destruct (handle_ledger rt r s) as [->|(a & b & act & _ & ->)];
      [done|by apply ledger_upsert_well_formed].
  - unfold profiles in *.
    destruct r as [details|payload|user_id|payload|user_id|user_id peer_id limit|payload];
      cbn [handle].
    + by apply create_profile_well_formed.
    + by apply update_profile_well_formed.
    + by rewrite read_only_next_profile.
    + by rewrite preserves_like_profile.
    + by rewrite read_only_list_chats.
    + by rewrite read_only_get_messages.
    + by rewrite preserves_send_message.
Qed.

Lemma run_well_formed rt reqs s : well_formed s → well_formed (run rt reqs s).
Proof.
  intros H. induction reqs as [|r reqs IH] using rev_ind; [done|].
  rewrite run_snoc. by apply handle_well_formed.
Qed.

Lemma initial_well_formed : well_formed initial.
Proof. split; apply Forall_nil_2. Qed.

Lemma next_profile_excludes_witness :
  (∀ r, (next_profile sample_rt alice initial).1 = Ok r →
        ¬ shows 10%N r ∧
        ∀ b, (∃ m, m ∈ ledger initial ∧ is_action 10%N b m) → ¬ shows b r) ∧
  (∀ act reqs r,
     let s1 := handle sample_rt (PostProfilesLike (like_request alice bob act)) initial in
     (next_profile sample_rt alice (run sample_rt reqs s1)).1 = Ok r → ¬ shows 11%N r).
Proof.
  apply (next_profile_excludes sample_rt initial alice bob 10%N 11%N); reflexivity.
Defined.


(** ** Facts about [list_chats] *)

Lemma dict_truthy_lookup (d : dict) k v : d !! k = Some v → dict_truthy d = true.
Proof.
  intros H. unfold dict_truthy. rewrite bool_decide_eq_false_2; [done|].
  intros ->. by rewrite lookup_empty in H.
Qed.

(** The peers collected by the loop over the caller's likes. *)
Lemma mutual_peers_Ok rt A likes peers s out :
  (mutual_peers rt A likes peers s).1 = Ok out →
  ∀ r, r ∈ out ↔
       r ∈ peers ∨
       ∃ like t o p,
         like ∈ likes ∧ like !! "target_id" = Some t ∧
         find_one (QEq {[ "user_id" := t; "target_id" := VOid A;
                          "action" := VStr "like" ]}) (ledger s) = Some o ∧
         dict_truthy o = true ∧
         find_one (QEq {[ "user_id" := t ]}) (profiles s) = Some p ∧
         dict_truthy p = true ∧
         r = serialize rt (Some p).
Proof.
  revert peers. induction likes as [|like likes IH]; intros peers;
    cbn [mutual_peers].
  - intros [= <-] r. split; [by left|].
    intros [?|(like & ? & ? & ? & Hin & _)]; [done|by apply elem_of_nil in Hin].
  - unfold bind at 1. unfold getitem.
    destruct (like !! "target_id") as [t|] eqn:Ht; [|done].
    cbn [ret]. unfold bind at 1. cbn [db_find_one]. fold (ledger s).
    assert (∀ peers',
      (∀ r, r ∈ peers' ↔ r ∈ peers) →
      (¬ ∃ o p,
           find_one (QEq {[ "user_id" := t; "target_id" := VOid A;
                            "action" := VStr "like" ]}) (ledger s) = Some o ∧
           dict_truthy o = true ∧
           find_one (QEq {[ "user_id" := t ]}) (profiles s) = Some p ∧
           dict_truthy p = true) →
      (mutual_peers rt A likes peers' s).1 = Ok out →
      ∀ r, r ∈ out ↔
           r ∈ peers ∨
           ∃ like0 t0 o p,
             like0 ∈ like :: likes ∧ like0 !! "target_id" = Some t0 ∧
             find_one (QEq {[ "user_id" := t0; "target_id" := VOid A;
                              "action" := VStr "like" ]}) (ledger s) = Some o ∧
             dict_truthy o = true ∧
             find_one (QEq {[ "user_id" := t0 ]}) (profiles s) = Some p ∧
             dict_truthy p = true ∧
             r = serialize rt (Some p)) as Hskip.
    { intros peers' Hsame Hnone H r. rewrite (IH _ H r), Hsame. split.
      - intros [?|(l0 & t0 & o & p & Hin & Hrest)]; [by left|].
        right. exists l0, t0, o, p. split; [by right|done].
      - intros [?|(l0 & t0 & o & p & [->|Hin]%elem_of_cons & Ht0 & Hrest)];
          [by left| |].
        + destruct Hnone. exists o, p. rewrite Ht in Ht0. simplify_eq.
          naive_solver.
        + right. exists l0, t0, o, p. done. }
    destruct (find_one _ (ledger s)) as [o|] eqn:Ho;
      [|apply Hskip; [done|]; by intros (? & ? & ? & _)].
    destruct (dict_truthy o) eqn:Hto;
      [|apply Hskip; [done|]; intros (? & ? & ? & ? & _); congruence].
    unfold bind at 1. cbn [db_find_one]. fold (profiles s).
    destruct (find_one _ (profiles s)) as [p|] eqn:Hp;
      [|apply Hskip; [done|]; by intros (? & ? & _ & _ & ? & _)].
    destruct (dict_truthy p) eqn:Htp;
      [|apply Hskip; [done|]; intros (? & ? & _ & _ & ? & ?); congruence].
    intros H r. rewrite (IH _ H r), elem_of_app, list_elem_of_singleton. split.
    + intros [[?| ->]|(l0 & t0 & o0 & p0 & Hin & Hrest)].
      * by left.
      * right. exists like, t, o, p. split_and!; [left|done..].
      * right. exists l0, t0, o0, p0. split; [by right|done].
    + intros [?|(l0 & t0 & o0 & p0 & [->|Hin]%elem_of_cons & Ht0 & Hrest)].
      * left. by left.
      * left. right. rewrite Ht in Ht0. simplify_eq.
        destruct Hrest as (_ & _ & Hp0 & _ & ->). congruence.
      * right. exists l0, t0, o0, p0. done.
Qed.

Lemma mutual_peers_total rt A likes peers s :
  Forall (has_oid "target_id") likes →
  ∃ out, mutual_peers rt A likes peers s = (Ok out, s).
Proof.
  revert peers. induction likes as [|like likes IH]; intros peers Hwf;
    cbn [mutual_peers].
  - by eexists.
  - apply Forall_cons in Hwf as [[b Hb] Hwf].
    unfold bind, getitem. rewrite Hb. cbn [ret db_find_one].
    repeat case_match; by apply IH.
Qed.

Lemma list_chats_unfold rt sA s A :
  ObjectId_parse rt sA = Some A →
  list_chats rt sA s =
    mutual_peers rt A
      (find (QEq {[ "user_id" := VOid A; "action" := VStr "like" ]}) (ledger s)) [] s.
Proof. intros HA. unfold list_chats, bind, to_oid. by rewrite HA. Qed.

Lemma qmatch_my_likes a (d : dict) :
  qmatch (QEq {[ "user_id" := VOid a; "action" := VStr "like" ]}) d = true ↔
  d !! "user_id" = Some (VOid a) ∧ field_matches d "action" (VStr "like") = true.
Proof.
  rewrite qmatch_insert by done. by rewrite qmatch_singleton, field_matches_oid.
Qed.

Lemma value_matches_from_oid o qv : value_matches (VOid o) qv = true ↔ qv = VOid o.
Proof.
  unfold value_matches. rewrite orb_false_r, bool_decide_eq_true. naive_solver.
Qed.

(** Who appears in the chat list: the users B such that both likes are in
    the ledger and a profile is stored for B. *)
Lemma list_chats_Ok rt sA s A peers :
  ObjectId_parse rt sA = Some A →
  (list_chats rt sA s).1 = Ok peers →
  ∀ B, (∃ r, r ∈ peers ∧ shows B r) ↔
       holds_like s A B ∧ holds_like s B A ∧ has_profile s B.
Proof.
  intros HA. rewrite (list_chats_unfold rt sA s A HA). intros H B.
  pose proof (mutual_peers_Ok rt A _ [] s peers H) as Hout. split.
  - intros (r & Hr & Hshows). apply Hout in Hr
      as [Hnil|(like & t & o & p & Hlike & Ht & Ho & _ & Hp & _ & ->)];
      [by apply elem_of_nil in Hnil|].
    apply shows_serialize in Hshows.
    apply find_one_Some in Hp as [Hp Hqp]. apply qmatch_singleton in Hqp.
    unfold field_matches in Hqp. rewrite Hshows in Hqp.
    apply value_matches_from_oid in Hqp as ->.
    apply elem_of_find in Hlike as [Hlike [Hu Hact]%qmatch_my_likes].
    apply find_one_Some in Ho as [Ho Hqo%qmatch_like].
    split_and!.
    + exists like. split; [done|]. by split.
    + by exists o.
    + by exists p.
  - intros ((like & Hlike & [Hu Ht] & Hact) & (o' & Ho' & Hlike') & (p' & Hp' & Hup')).
    destruct (find_one (QEq {[ "user_id" := VOid B; "target_id" := VOid A;
                               "action" := VStr "like" ]}) (ledger s))
      as [o|] eqn:Ho.
    2: { rewrite find_one_None in Ho. destruct (Ho o' Ho'). by apply qmatch_like. }
    destruct (find_one (QEq {[ "user_id" := VOid B ]}) (profiles s)) as [p|] eqn:Hp.
    2: { rewrite find_one_None in Hp. destruct (Hp p' Hp'). by apply qmatch_by_user. }
    exists (serialize rt (Some p)).
    pose proof (find_one_Some _ _ _ Ho) as [_ [[Hou _] _]%qmatch_like].
    pose proof (find_one_Some _ _ _ Hp) as [_ Hpu%qmatch_by_user].
    split; [|by apply shows_serialize].
    apply Hout. right. exists like, (VOid B), o, p. split_and!; try done.
    + apply elem_of_find. split; [done|]. by apply qmatch_my_likes.
    + by eapply dict_truthy_lookup.
    + by eapply dict_truthy_lookup.
Qed.

Lemma list_chats_total rt sA s A :
  ObjectId_parse rt sA = Some A → well_formed s →
  ∃ peers, list_chats rt sA s = (Ok peers, s).
Proof.
  intros HA [Hl _]. rewrite (list_chats_unfold rt sA s A HA).
  apply mutual_peers_total. rewrite Forall_forall in Hl. apply Forall_forall.
  intros m [Hm _]%elem_of_find. by apply Hl.
Qed.

Lemma list_chats_elem rt sA s A peers r :
  ObjectId_parse rt sA = Some A → well_formed s →
  (list_chats rt sA s).1 = Ok peers → r ∈ peers → ∃ b, shows b r.
Proof.
  intros HA [Hl _]. rewrite (list_chats_unfold rt sA s A HA). intros H Hr.
  apply (mutual_peers_Ok rt A _ [] s peers H) in Hr
    as [Hnil|(like & t & o & p & Hlike & Ht & _ & _ & Hp & _ & ->)];
    [by apply elem_of_nil in Hnil|].
  apply elem_of_find in Hlike as [Hlike _].
  rewrite Forall_forall in Hl. destruct (Hl like Hlike) as [b Hb].
  rewrite Ht in Hb. simplify_eq. exists b. apply shows_serialize.
  by apply find_one_Some in Hp as [_ ?%qmatch_by_user].
Qed.

(** A like of [a] on [b] puts (a → b, like) in the ledger and leaves the
    likes of every other ordered pair, and the profiles, as they were. *)
Lemma handle_like_holds rt s sA sB A B :
  ObjectId_parse rt sA = Some A → ObjectId_parse rt sB = Some B → A ≠ B →
  let s' := handle rt (PostProfilesLike (like_request sA sB "like")) s in
  holds_like s' A B ∧
  (∀ a b, (a, b) ≠ (A, B) → holds_like s' a b ↔ holds_like s a b) ∧
  (∀ b, has_profile s' b ↔ has_profile s b).
Proof.
  intros HA HB Hne s'.
  destruct (handle_like rt s sA sB "like" A B) as [Hl Hframe]; [done..|].
  fold s' in Hl, Hframe. split_and!.
  - destruct (ledger_upsert_holds rt A B "like" s) as (d & Hd & Hact & Hlike).
    exists d. rewrite Hl. split; [done|]. split; [done|].
    by apply field_matches_Some.
  - intros a b Hab. unfold holds_like. rewrite Hl.
    assert (∀ d, is_like a b d → ¬ is_action A B d) as Hother.
    { intros d [Hact _] Hact'. destruct (is_action_inj _ _ _ _ _ Hact Hact').
      congruence. }
    split; intros (d & Hd & Hlike); exists d; (split; [|done]);
      by apply (ledger_upsert_frame rt A B "like" s d (Hother d Hlike)).
  - intros b. unfold has_profile, profiles. by rewrite Hframe.
Qed.

(** ** The chat list *)

(** C6, amended. On a well-formed store B appears in the chat list of A
    exactly when the ledger holds (A → B, like) and (B → A, like) and a
    profile is stored for B.  So with profiles stored for A and B: after A
    likes B while B has not liked A, B is not in A's list; once B likes A
    back, B is in A's list and A is in B's list. *)
Theorem chat_list_mutual_with_profile rt s sA sB A B :
  ObjectId_parse rt sA = Some A →
  ObjectId_parse rt sB = Some B →
  A ≠ B →
  well_formed s →
  (∃ peers, list_chats rt sA s = (Ok peers, s) ∧
     ∀ b, (∃ r, r ∈ peers ∧ shows b r) ↔
          holds_like s A b ∧ holds_like s b A ∧ has_profile s b) ∧
  (¬ holds_like s B A → has_profile s A → has_profile s B →
   let s1 := handle rt (PostProfilesLike (like_request sA sB "like")) s in
   let s2 := handle rt (PostProfilesLike (like_request sB sA "like")) s1 in
   (∃ peers, list_chats rt sA s1 = (Ok peers, s1) ∧ ¬ ∃ r, r ∈ peers ∧ shows B r) ∧
   (∃ peers, list_chats rt sA s2 = (Ok peers, s2) ∧ ∃ r, r ∈ peers ∧ shows B r) ∧
   (∃ peers, list_chats rt sB s2 = (Ok peers, s2) ∧ ∃ r, r ∈ peers ∧ shows A r)).
Proof.
  intros HA HB Hne Hwf.
  assert (∀ s sX X, ObjectId_parse rt sX = Some X → well_formed s →
            ∃ peers, list_chats rt sX s = (Ok peers, s) ∧
              ∀ b, (∃ r, r ∈ peers ∧ shows b r) ↔
                   holds_like s X b ∧ holds_like s b X ∧ has_profile s b) as Hiff.
  { clear. intros s sX X HX Hwf.
    destruct (list_chats_total rt sX s X HX Hwf) as [peers Hpeers].
    exists peers. split; [done|]. apply (list_chats_Ok rt sX s X); [done|].
    by rewrite Hpeers. }
  split; [by apply Hiff|].
  intros Hnot HpA HpB s1 s2.
  destruct (handle_like_holds rt s sA sB A B) as (H1AB & H1frame & H1prof); [done..|].
  fold s1 in H1AB, H1frame, H1prof.
  destruct (handle_like_holds rt s1 sB sA B A) as (H2BA & H2frame & H2prof); [done..|].
  fold s2 in H2BA, H2frame, H2prof.
  assert (well_formed s1) as Hwf1 by by apply handle_well_formed.
  assert (well_formed s2) as Hwf2 by by apply handle_well_formed.
  assert (holds_like s2 A B) as H2AB by (apply H2frame; [congruence|done]).
  split_and!.
  - destruct (Hiff s1 sA A HA Hwf1) as (peers & Hpeers & Hin).
    exists peers. split; [done|]. intros (_ & HBA & _)%Hin.
    apply Hnot, H1frame; [congruence|done].
  - destruct (Hiff s2 sA A HA Hwf2) as (peers & Hpeers & Hin).
    exists peers. split; [done|]. apply Hin. split_and!; [done..|].
    by apply H2prof, H1prof.
  - destruct (Hiff s2 sB B HB Hwf2) as (peers & Hpeers & Hin).
    exists peers. split; [done|]. apply Hin. split_and!; [done..|].
    by apply H2prof, H1prof.
Qed.

(** C9. On a well-formed store the chat list of A shows no user without a
    stored profile, and it is the empty list, not an error, when none of the
    users in a mutual like with A has a stored profile. *)
Theorem chat_list_skips_missing_profiles rt s sA A :
  ObjectId_parse rt sA = Some A →
  well_formed s →
  ∃ peers, list_chats rt sA s = (Ok peers, s) ∧
    (∀ B, ¬ has_profile s B → ¬ ∃ r, r ∈ peers ∧ shows B r) ∧
    ((∀ B, holds_like s A B → holds_like s B A → ¬ has_profile s B) → peers = []).
Proof.
  intros HA Hwf. destruct (list_chats_total rt sA s A HA Hwf) as [peers Hpeers].
  exists peers. split; [done|].
  assert ((list_chats rt sA s).1 = Ok peers) as Hfst by by rewrite Hpeers.
  pose proof (list_chats_Ok rt sA s A peers HA Hfst) as Hin. split.
  - intros B Hnone (_ & _ & Hp)%Hin. by apply Hnone.
  - intros Hnone. destruct peers as [|r peers']; [done|].
    destruct (list_chats_elem rt sA s A (r :: peers') r HA Hwf Hfst) as [b Hb];
      [left|].
    assert (∃ r', r' ∈ r :: peers' ∧ shows b r') as (HAb & HbA & Hp)%Hin
      by (exists r; split; [left|done]).
    by destruct (Hnone b).
Qed.

Ltac concrete_well_formed :=
  split; repeat (apply Forall_cons; split; [eexists; reflexivity|]);
  apply Forall_nil_2.

Lemma chat_list_mutual_with_profile_witness :
  let s := run sample_rt three_profiles initial in
  (∃ peers, list_chats sample_rt alice s = (Ok peers, s) ∧
     ∀ b, (∃ r, r ∈ peers ∧ shows b r) ↔
          holds_like s 10%N b ∧ holds_like s b 10%N ∧ has_profile s b) ∧
  (¬ holds_like s 11%N 10%N → has_profile s 10%N → has_profile s 11%N →
   let s1 := handle sample_rt (PostProfilesLike (like_request alice bob "like")) s in
   let s2 := handle sample_rt (PostProfilesLike (like_request bob alice "like")) s1 in
   (∃ peers, list_chats sample_rt alice s1 = (Ok peers, s1) ∧
             ¬ ∃ r, r ∈ peers ∧ shows 11%N r) ∧
   (∃ peers, list_chats sample_rt alice s2 = (Ok peers, s2) ∧
             ∃ r, r ∈ peers ∧ shows 11%N r) ∧
   (∃ peers, list_chats sample_rt bob s2 = (Ok peers, s2) ∧
             ∃ r, r ∈ peers ∧ shows 10%N r)).
Proof.
  apply (chat_list_mutual_with_profile sample_rt
           (run sample_rt three_profiles initial) alice bob 10%N 11%N).
  - reflexivity.
  - reflexivity.
  - discriminate.
  - concrete_well_formed.
Defined.

(** C6 as stated fails: with both likes in the ledger and no profile stored
    for bob, the chat list of alice is empty. *)
Lemma chat_list_without_profile :
  let s := run sample_rt
             [ PostProfilesLike (like_request alice bob "like");
               PostProfilesLike (like_request bob alice "like") ] initial in
  holds_like s 10%N 11%N ∧ holds_like s 11%N 10%N ∧
  (list_chats sample_rt alice s).1 = Ok [].
Proof.
  cbn zeta. split_and!.
  - eexists. split; [vm_compute; left|]. by vm_compute.
  - eexists. split; [vm_compute; right; left|]. by vm_compute.
  - reflexivity.
Qed.

Lemma chat_list_skips_missing_profiles_witness :
  let s := run sample_rt
             [ PostProfilesLike (like_request alice bob "like");
               PostProfilesLike (like_request bob alice "like") ] initial in
  ∃ peers, list_chats sample_rt alice s = (Ok peers, s) ∧
    (∀ B, ¬ has_profile s B → ¬ ∃ r, r ∈ peers ∧ shows B r) ∧
    ((∀ B, holds_like s 10%N B → holds_like s B 10%N → ¬ has_profile s B) →
     peers = []).
Proof.
  apply (chat_list_skips_missing_profiles sample_rt _ alice 10%N).
  - reflexivity.
  - concrete_well_formed.
Defined.

(** ** Facts about [get_messages] *)

Lemma find_conversation a b c :
  find (QOr [ QEq {[ "sender_id" := VOid a; "receiver_id" := VOid b ]};
              QEq {[ "sender_id" := VOid b; "receiver_id" := VOid a ]} ]) c =
  filter (in_conversation a b) c.
Proof. unfold find. apply list_filter_iff. intros m. apply qmatch_conversation. Qed.

Lemma get_messages_unfold rt sA sB limit s A B :
  ObjectId_parse rt sA = Some A → ObjectId_parse rt sB = Some B →
  get_messages rt sA sB limit s =
    (Ok ((λ m, serialize rt (Some m)) <$>
           cursor_limit limit
             (cursor_sort "created_at" ASCENDING
                (filter (in_conversation A B) (message_log s)))), s).
Proof.
  intros HA HB. unfold get_messages, bind, to_oid. rewrite HA, HB.
  cbn [ret db_find]. by rewrite find_conversation.
Qed.

(** The answer of [get_messages] is computed from the message log alone. *)
Lemma get_messages_ext rt sA sB limit s1 s2 :
  message_log s1 = message_log s2 →
  (get_messages rt sA sB limit s1).1 = (get_messages rt sA sB limit s2).1.
Proof.
  intros H. unfold get_messages, bind, to_oid.
  destruct (ObjectId_parse rt sA); [|done].
  destruct (ObjectId_parse rt sB); [|done].
  cbn [ret db_find fst]. unfold message_log in H. by rewrite H.
Qed.

Lemma StronglySorted_lookup {A} (R : relation A) l i j x y :
  StronglySorted R l → l !! i = Some x → l !! j = Some y → (i < j)%nat → R x y.
Proof.
  intros Hs. revert i j. induction Hs as [|a l Hs IH Hall]; intros i j Hi Hj Hlt.
  - by rewrite lookup_nil in Hi.
  - destruct j as [|j]; [lia|]. destruct i as [|i].
    + cbn in Hi, Hj. simplify_eq. rewrite Forall_forall in Hall.
      apply Hall. by eapply list_elem_of_lookup_2.
    + cbn in Hi, Hj. apply (IH i j); [done..|lia].
Qed.

Lemma cursor_limit_positive n c :
  0 < n → cursor_limit n c = take (Z.to_nat n) c.
Proof.
  intros H. unfold cursor_limit. rewrite decide_False by lia.
  by rewrite Z.abs_eq by lia.
Qed.

Lemma cursor_limit_zero c : cursor_limit 0 c = c.
Proof. done. Qed.

(** The answer to a conversation request carries its messages. *)
Lemma rendering_conversation rt a b (msgs : collection) :
  Forall (in_conversation a b) msgs →
  Forall2 (rendering rt) msgs ((λ m, serialize rt (Some m)) <$> msgs).
Proof.
  intros H. apply Forall2_fmap_r, Forall_Forall2_diag.
  eapply Forall_impl; [exact H|].
  intros m [[Hs _]|[Hs _]]; by eapply serialize_rendering_key.
Qed.

Lemma conversation_prefix_Forall a b k dir n (c : collection) :
  Forall (in_conversation a b)
    (take n (cursor_sort k dir (filter (in_conversation a b) c))).
Proof.
  apply Forall_forall. intros m Hm.
  apply subseteq_take, elem_of_cursor_sort, list_elem_of_filter in Hm. tauto.
Qed.

(** ** Conversations *)

(** C7, amended. For a positive [limit], [get_messages] answers with the
    serialized form of [msgs], where [msgs] followed by some [rest] is a
    rearrangement of exactly the messages exchanged between A and B,
    whichever side sent them, in ascending order of [created_at]; [msgs] has
    [limit] entries, or all of them when there are fewer.  So the answer is
    the oldest [limit] messages of the conversation, oldest first, each
    entry carrying every field of its message (sender, receiver, text,
    [created_at] in ISO format, [id]). *)
Theorem conversation_oldest_first rt s sA sB A B limit :
  ObjectId_parse rt sA = Some A →
  ObjectId_parse rt sB = Some B →
  0 < limit →
  ∃ msgs rest,
    get_messages rt sA sB limit s =
      (Ok ((λ m, serialize rt (Some m)) <$> msgs), s) ∧
    msgs ++ rest ≡ₚ filter (in_conversation A B) (message_log s) ∧
    StronglySorted not_after (msgs ++ rest) ∧
    length msgs =
      Nat.min (Z.to_nat limit)
              (length (filter (in_conversation A B) (message_log s))) ∧
    (∀ i j m1 m2 t1 t2,
       (msgs ++ rest) !! i = Some m1 → (msgs ++ rest) !! j = Some m2 →
       (i < j)%nat →
       m1 !! "created_at" = Some (VDate t1) →
       m2 !! "created_at" = Some (VDate t2) → t1 ≤ t2) ∧
    Forall2 (rendering rt) msgs ((λ m, serialize rt (Some m)) <$> msgs).
Proof.
  intros HA HB Hpos.
  set (sorted := cursor_sort "created_at" ASCENDING
                   (filter (in_conversation A B) (message_log s))).
  exists (take (Z.to_nat limit) sorted), (drop (Z.to_nat limit) sorted).
  assert (StronglySorted not_after sorted) as Hsorted
    by apply (cursor_sort_sorted "created_at" ASCENDING).
  rewrite take_drop. split_and!.
  - rewrite (get_messages_unfold rt sA sB limit s A B) by done.
    by rewrite cursor_limit_positive.
  - apply cursor_sort_Permutation.
  - done.
  - rewrite length_take. f_equal. apply Permutation_length, cursor_sort_Permutation.
  - intros i j m1 m2 t1 t2 Hi Hj Hlt Ht1 Ht2.
    pose proof (StronglySorted_lookup _ _ _ _ _ _ Hsorted Hi Hj Hlt) as Hle.
    unfold not_after in Hle. rewrite Ht1, Ht2 in Hle. by apply key_le_dates.
  - apply (rendering_conversation rt A B), conversation_prefix_Forall.
Qed.

Lemma conversation_oldest_first_witness :
  let s := run sample_rt
             [ PostChatsSend (send_request alice bob "hi");
               PostChatsSend (send_request bob alice "hello");
               PostChatsSend (send_request carol alice "hey") ] initial in
  ∃ msgs rest,
    get_messages sample_rt alice bob 1 s =
      (Ok ((λ m, serialize sample_rt (Some m)) <$> msgs), s) ∧
    msgs ++ rest ≡ₚ filter (in_conversation 10%N 11%N) (message_log s) ∧
    StronglySorted not_after (msgs ++ rest) ∧
    length msgs =
      Nat.min (Z.to_nat 1)
              (length (filter (in_conversation 10%N 11%N) (message_log s))) ∧
    (∀ i j m1 m2 t1 t2,
       (msgs ++ rest) !! i = Some m1 → (msgs ++ rest) !! j = Some m2 →
       (i < j)%nat →
       m1 !! "created_at" = Some (VDate t1) →
       m2 !! "created_at" = Some (VDate t2) → t1 ≤ t2) ∧
    Forall2 (rendering sample_rt) msgs
      ((λ m, serialize sample_rt (Some m)) <$> msgs).
Proof.
  apply (conversation_oldest_first sample_rt _ alice bob 10%N 11%N 1).
  - reflexivity.
  - reflexivity.
  - lia.
Defined.

(** C7 as stated fails at [limit = 0]: one message was exchanged and the
    answer has one entry, more than the limit. *)
Lemma conversation_limit_zero_not_truncated :
  let s := run sample_rt [ PostChatsSend (send_request alice bob "hi") ] initial in
  ∃ out, (get_messages sample_rt alice bob 0 s).1 = Ok out ∧
         ¬ (Z.of_nat (length out) ≤ 0).
Proof. cbn zeta. eexists. split; [by vm_compute|]. cbn. lia. Qed.

(** C8. A like or a dislike, accepted or rejected, leaves the message log
    as it was, and [get_messages] answers from the message log alone; so the
    answer for any pair and limit is the same after the decision as before
    it. *)
Theorem decisions_keep_messages rt s payload sA sB limit :
  let s' := (like_profile rt payload s).2 in
  message_log s' = message_log s ∧
  (get_messages rt sA sB limit s').1 = (get_messages rt sA sB limit s).1 ∧
  (∀ s1 s2, message_log s1 = message_log s2 →
            (get_messages rt sA sB limit s1).1 = (get_messages rt sA sB limit s2).1).
Proof.
  intros s'.
  assert (message_log s' = message_log s) as Hlog
    by by apply preserves_like_profile.
  split_and!; [done|by apply get_messages_ext|apply get_messages_ext].
Qed.

(** C10. With [limit = 0] the answer holds every message exchanged between A
    and B, oldest first, each entry carrying every field of its message; with
    a positive [limit] it has at most [limit] entries. *)
Theorem zero_limit_returns_all rt s sA sB A B :
  ObjectId_parse rt sA = Some A →
  ObjectId_parse rt sB = Some B →
  (∃ msgs,
     get_messages rt sA sB 0 s = (Ok ((λ m, serialize rt (Some m)) <$> msgs), s) ∧
     msgs ≡ₚ filter (in_conversation A B) (message_log s) ∧
     StronglySorted not_after msgs ∧
     Forall2 (rendering rt) msgs ((λ m, serialize rt (Some m)) <$> msgs)) ∧
  (∀ limit, 0 < limit →
     ∃ out, get_messages rt sA sB limit s = (Ok out, s) ∧
            Z.of_nat (length out) ≤ limit).
Proof.
  intros HA HB. split.
  - eexists. split_and!.
    + by rewrite (get_messages_unfold rt sA sB 0 s A B), cursor_limit_zero.
    + apply cursor_sort_Permutation.
    + apply (cursor_sort_sorted "created_at" ASCENDING).
    + apply (rendering_conversation rt A B), Forall_forall. intros m Hm.
      apply elem_of_cursor_sort, list_elem_of_filter in Hm. tauto.
  - intros limit Hpos. eexists. split.
    + by rewrite (get_messages_unfold rt sA sB limit s A B),
        cursor_limit_positive.
    + rewrite length_fmap, length_take. lia.
Qed.

Lemma zero_limit_returns_all_witness :
  let s := run sample_rt
             [ PostChatsSend (send_request alice bob "hi");
               PostChatsSend (send_request bob alice "hello") ] initial in
  (∃ msgs,
     get_messages sample_rt alice bob 0 s =
       (Ok ((λ m, serialize sample_rt (Some m)) <$> msgs), s) ∧
     msgs ≡ₚ filter (in_conversation 10%N 11%N) (message_log s) ∧
     StronglySorted not_after msgs ∧
     Forall2 (rendering sample_rt) msgs
       ((λ m, serialize sample_rt (Some m)) <$> msgs)) ∧
  (∀ limit, 0 < limit →
     ∃ out, get_messages sample_rt alice bob limit s = (Ok out, s) ∧
            Z.of_nat (length out) ≤ limit).
Proof.
  apply (zero_limit_returns_all sample_rt _ alice bob 10%N 11%N); reflexivity.
Defined.

Lemma shows_lookup b (r : option dict) :
  r ≫= (.!! "user_id") = Some (VOid b) → shows b r.
Proof. destruct r as [d|]; [|done]. intros H. by exists d. Qed.

(** ** Worked examples on the sample runtime *)

(** Alice, Bob and Carol have profiles, Carol's the most recent.  Alice is
    shown Carol first, Bob once she has decided on Carol, and the sentinel
    once she has decided on both. *)
Example discovery_consumes_the_pool :
  let s0 := run sample_rt three_profiles initial in
  let s1 := handle sample_rt (PostProfilesLike (like_request alice carol "dislike")) s0 in
  let s2 := handle sample_rt (PostProfilesLike (like_request alice bob "like")) s1 in
  shows 12%N (default None (if (next_profile sample_rt alice s0).1 is Ok r then Some r else None)) ∧
  shows 11%N (default None (if (next_profile sample_rt alice s1).1 is Ok r then Some r else None)) ∧
  (next_profile sample_rt alice s2).1 = Ok (Some no_more_profiles).
Proof.
  cbn zeta. split_and!.
  - apply shows_lookup. reflexivity.
  - apply shows_lookup. reflexivity.
  - reflexivity.
Qed.

(** With profiles stored, Bob enters Alice's chat list when he likes her
    back, and leaves it when he then dislikes her. *)
Example chat_list_follows_the_ledger :
  let s0 := run sample_rt three_profiles initial in
  let s1 := handle sample_rt (PostProfilesLike (like_request alice bob "like")) s0 in
  let s2 := handle sample_rt (PostProfilesLike (like_request bob alice "like")) s1 in
  let s3 := handle sample_rt (PostProfilesLike (like_request bob alice "dislike")) s2 in
  (list_chats sample_rt alice s1).1 = Ok [] ∧
  (∃ r, (list_chats sample_rt alice s2).1 = Ok [r] ∧ shows 11%N r) ∧
  (list_chats sample_rt alice s3).1 = Ok [].
Proof.
  cbn zeta. split_and!.
  - reflexivity.
  - eexists. split; [reflexivity|]. apply shows_lookup. reflexivity.
  - reflexivity.
Qed.

(** Two messages between Alice and Bob come back oldest first, whoever asks
    and whoever sent them, and still do after Bob dislikes Alice. *)
Example conversation_survives_a_dislike :
  let s0 := run sample_rt
              [ PostProfilesLike (like_request alice bob "like");
                PostProfilesLike (like_request bob alice "like");
                PostChatsSend (send_request alice bob "hi");
                PostChatsSend (send_request bob alice "hello") ] initial in
  let s1 := handle sample_rt (PostProfilesLike (like_request bob alice "dislike")) s0 in
  let texts (o : outcome (list (option dict))) :=
    if o is Ok out then (λ r, r ≫= (.!! "text")) <$> out else [] in
  texts (get_messages sample_rt bob alice 10 s0).1 = [Some (VStr "hi"); Some (VStr "hello")] ∧
  texts (get_messages sample_rt alice bob 10 s1).1 = [Some (VStr "hi"); Some (VStr "hello")] ∧
  texts (get_messages sample_rt alice bob 1 s1).1 = [Some (VStr "hi")].
Proof. cbn zeta. split_and!; reflexivity. Qed.

(** ** Identifiers that do not parse *)

Lemma to_oid_invalid {A} rt bad (k : ObjectId → M A) s :
  ObjectId_parse rt bad = None →
  bind (to_oid rt bad) k s = rejected 400 "Invalid id format" s.
Proof. intros H. unfold bind, to_oid. by rewrite H. Qed.

Lemma to_oid_valid {A} rt id_str o (k : ObjectId → M A) s :
  ObjectId_parse rt id_str = Some o → bind (to_oid rt id_str) k s = k o s.
Proof. intros H. unfold bind, to_oid. by rewrite H. Qed.

(** X1. An identifier that [ObjectId] does not accept makes every handler
    that takes one raise 400 "Invalid id format" before it reads or writes
    anything, in whichever identifier field of the request it stands. *)
Theorem invalid_id_rejected rt s bad :
  ObjectId_parse rt bad = None →
  (∀ details, ProfileDetails.user_id details = bad →
     create_or_complete_profile rt details s = rejected 400 "Invalid id format" s) ∧
  (∀ payload, ProfileUpdate.user_id payload = bad →
     update_profile rt payload s = rejected 400 "Invalid id format" s) ∧
  get_my_profile rt bad s = rejected 400 "Invalid id format" s ∧
  next_profile rt bad s = rejected 400 "Invalid id format" s ∧
  (∀ payload,
     LikeRequest.user_id payload = bad ∨ LikeRequest.target_id payload = bad →
     like_profile rt payload s = rejected 400 "Invalid id format" s) ∧
  list_chats rt bad s = rejected 400 "Invalid id format" s ∧
  (∀ other limit,
     get_messages rt bad other limit s = rejected 400 "Invalid id format" s ∧
     get_messages rt other bad limit s = rejected 400 "Invalid id format" s) ∧
  (∀ payload,
     SendMessageRequest.user_id payload = bad ∨
     SendMessageRequest.peer_id payload = bad →
     send_message rt payload s = rejected 400 "Invalid id format" s).
Proof.
  intros Hbad. split_and!.
  - intros details <-. by apply to_oid_invalid.
  - intros payload <-. by apply to_oid_invalid.
  - by apply to_oid_invalid.
  - by apply to_oid_invalid.
  - intros payload [<-|<-]; apply like_profile_invalid; auto.
  - by apply to_oid_invalid.
  - intros other limit. split; [by apply to_oid_invalid|].
    unfold get_messages.
    destruct (ObjectId_parse rt other) as [o|] eqn:Ho.
    + rewrite (to_oid_valid rt other o) by done. by apply to_oid_invalid.
    + by apply to_oid_invalid.
  - intros payload [<-|<-]; [by apply to_oid_invalid|].
    unfold send_message.
    destruct (ObjectId_parse rt (SendMessageRequest.user_id payload)) as [o|] eqn:Ho.
    + rewrite (to_oid_valid rt _ o) by done. by apply to_oid_invalid.
    + by apply to_oid_invalid.
Qed.

Lemma invalid_id_rejected_witness :
  let s := run sample_rt three_profiles initial in
  let bad := "not-an-id" in
  (∀ details, ProfileDetails.user_id details = bad →
     create_or_complete_profile sample_rt details s =
       rejected 400 "Invalid id format" s) ∧
  (∀ payload, ProfileUpdate.user_id payload = bad →
     update_profile sample_rt payload s = rejected 400 "Invalid id format" s) ∧
  get_my_profile sample_rt bad s = rejected 400 "Invalid id format" s ∧
  next_profile sample_rt bad s = rejected 400 "Invalid id format" s ∧
  (∀ payload,
     LikeRequest.user_id payload = bad ∨ LikeRequest.target_id payload = bad →
     like_profile sample_rt payload s = rejected 400 "Invalid id format" s) ∧
  list_chats sample_rt bad s = rejected 400 "Invalid id format" s ∧
  (∀ other limit,
     get_messages sample_rt bad other limit s = rejected 400 "Invalid id format" s ∧
     get_messages sample_rt other bad limit s = rejected 400 "Invalid id format" s) ∧
  (∀ payload,
     SendMessageRequest.user_id payload = bad ∨
     SendMessageRequest.peer_id payload = bad →
     send_message sample_rt payload s = rejected 400 "Invalid id format" s).
Proof.
  apply (invalid_id_rejected sample_rt
           (run sample_rt three_profiles initial) "not-an-id").
  reflexivity.
Defined.

(** ** What the handlers leave alone *)

Lemma read_only_get_my_profile rt user_id : read_only (get_my_profile rt user_id).
Proof. unfold get_my_profile. repeat read_only_step. Qed.

(** X2. The four GET handlers only read: whether they answer or raise, the
    state after the call is the state before it. *)
Theorem get_handlers_read_only rt s user_id peer_id limit :
  (get_my_profile rt user_id s).2 = s ∧
  (next_profile rt user_id s).2 = s ∧
  (list_chats rt user_id s).2 = s ∧
  (get_messages rt user_id peer_id limit s).2 = s.
Proof.
  split_and!;
    [apply read_only_get_my_profile|apply read_only_next_profile
    |apply read_only_list_chats|apply read_only_get_messages].
Qed.

(** X3. Each POST handler writes one collection: the two profile handlers
    leave every collection but [profile] as it was, [like_profile] every
    collection but [match], [send_message] every collection but [message],
    whether they answer or raise. *)
Theorem post_handlers_write_one_collection rt s name :
  (∀ details, name ≠ "profile" →
     coll (create_or_complete_profile rt details s).2 name = coll s name) ∧
  (∀ payload, name ≠ "profile" →
     coll (update_profile rt payload s).2 name = coll s name) ∧
  (∀ payload, name ≠ "match" →
     coll (like_profile rt payload s).2 name = coll s name) ∧
  (∀ payload, name ≠ "message" →
     coll (send_message rt payload s).2 name = coll s name).
Proof.
  split_and!; intros ? ?;
    [by apply preserves_create_or_complete_profile|by apply preserves_update_profile
    |by apply preserves_like_profile|by apply preserves_send_message].
Qed.

(** ** The shape of a serialized document *)

(** X4. [serialize] answers [None] for [None] and for the empty document.
    For any other document the answer has no [_id] field and no [datetime]
    value; [id] is [str(_id)] when the document has a true [_id], and the
    document's own [id] otherwise; every other field keeps its value, dates
    in ISO format.  In particular an identifier stored under another key
    ([user_id], [sender_id], ...) stays an [ObjectId]. *)
Theorem serialize_shape rt (doc : dict) :
  doc ≠ ∅ →
  serialize rt None = None ∧
  serialize rt (Some ∅) = None ∧
  ∃ r, serialize rt (Some doc) = Some r ∧
       r !! "_id" = None ∧
       (∀ k t, r !! k ≠ Some (VDate t)) ∧
       r !! "id" =
         (if truthy (py_get doc "_id")
          then Some (VStr (py_str rt (py_get doc "_id")))
          else isoformat_value rt <$> doc !! "id") ∧
       (∀ k, k ≠ "id" → k ≠ "_id" → r !! k = isoformat_value rt <$> doc !! k) ∧
       (∀ k o, k ≠ "id" → k ≠ "_id" →
               doc !! k = Some (VOid o) → r !! k = Some (VOid o)).
Proof.
  intros Hdoc. split; [done|]. split; [done|].
  unfold serialize, dict_truthy. rewrite bool_decide_eq_false_2 by done.
  cbn [negb]. eexists. split; [done|].
  assert (∀ v t, isoformat_value rt v ≠ VDate t) as Hnodate by by intros [].
  split_and!.
  - rewrite lookup_fmap. destruct (truthy _).
    + by rewrite lookup_insert_ne, lookup_delete_eq.
    + by rewrite lookup_delete_eq.
  - intros k t. rewrite lookup_fmap.
    destruct (_ !! k) as [v|]; cbn; [|done]. intros [= H]. by apply Hnodate in H.
  - rewrite lookup_fmap. destruct (truthy _).
    + by rewrite lookup_insert_eq.
    + by rewrite lookup_delete_ne.
  - intros k Hid H_id. rewrite lookup_fmap. destruct (truthy _).
    + by rewrite lookup_insert_ne, lookup_delete_ne.
    + by rewrite lookup_delete_ne.
  - intros k o Hid H_id Hk. rewrite lookup_fmap. destruct (truthy _).
    + by rewrite lookup_insert_ne, lookup_delete_ne, Hk.
    + by rewrite lookup_delete_ne, Hk.
Qed.

Lemma serialize_shape_witness :
  let doc : dict :=
    {[ "_id" := VOid 7%N; "sender_id" := VOid 10%N; "created_at" := VDate 1000 ]} in
  serialize sample_rt None = None ∧
  serialize sample_rt (Some ∅) = None ∧
  ∃ r, serialize sample_rt (Some doc) = Some r ∧
       r !! "_id" = None ∧
       (∀ k t, r !! k ≠ Some (VDate t)) ∧
       r !! "id" =
         (if truthy (py_get doc "_id")
          then Some (VStr (py_str sample_rt (py_get doc "_id")))
          else isoformat_value sample_rt <$> doc !! "id") ∧
       (∀ k, k ≠ "id" → k ≠ "_id" →
             r !! k = isoformat_value sample_rt <$> doc !! k) ∧
       (∀ k o, k ≠ "id" → k ≠ "_id" →
               doc !! k = Some (VOid o) → r !! k = Some (VOid o)).
Proof.
  apply (serialize_shape sample_rt
           {[ "_id" := VOid 7%N; "sender_id" := VOid 10%N;
              "created_at" := VDate 1000 ]}).
  intros H. apply (f_equal (λ m : dict, m !! "_id")) in H. vm_compute in H.
  discriminate.
Defined.

(** ** Messages *)

Lemma in_conversation_sym a b m : in_conversation a b m ↔ in_conversation b a m.
Proof. unfold in_conversation. tauto. Qed.

(** X5. A conversation reads the same from both ends: [get_messages] gives
    the same outcome, answer or error, and the same state when the user and
    the peer are swapped. *)
Theorem get_messages_symmetric rt s sA sB limit :
  get_messages rt sA sB limit s = get_messages rt sB sA limit s.
Proof.
  destruct (ObjectId_parse rt sA) as [A|] eqn:HA;
    destruct (ObjectId_parse rt sB) as [B|] eqn:HB.
  - rewrite (get_messages_unfold rt sA sB limit s A B),
      (get_messages_unfold rt sB sA limit s B A) by done.
    do 5 f_equal. apply list_filter_iff. intros m. apply in_conversation_sym.
  - unfold get_messages. rewrite (to_oid_valid rt sA A) by done.
    by rewrite !to_oid_invalid.
  - unfold get_messages. rewrite (to_oid_valid rt sB B) by done.
    by rewrite !to_oid_invalid.
  - unfold get_messages. by rewrite !to_oid_invalid.
Qed.

Lemma new_message_conversation rt u p text s :
  in_conversation u p (new_message rt u p text s).
Proof. by left. Qed.

Lemma send_message_run rt payload s u p :
  ObjectId_parse rt (SendMessageRequest.user_id payload) = Some u →
  ObjectId_parse rt (SendMessageRequest.peer_id payload) = Some p →
  ∃ s',
    send_message rt payload s =
      (Ok (serialize rt
             (find_one (QEq {[ "_id" := VOid (new_oid rt (minted s)) ]})
                (message_log s'))), s') ∧
    message_log s' =
      message_log s ++ [new_message rt u p (SendMessageRequest.text payload) s].
Proof.
  intros Hu Hp. unfold send_message.
  rewrite (to_oid_valid rt _ u), (to_oid_valid rt _ p) by done.
  unfold bind, now, db_insert_one, db_find_one, ret. cbn.
  eexists. split; [reflexivity|]. unfold message_log. by rewrite coll_insert.
Qed.

Lemma find_one_app q c1 c2 :
  find_one q (c1 ++ c2) =
  match find_one q c1 with
  | Some d => Some d
  | None => find_one q c2
  end.
Proof.
  rewrite !find_one_head. unfold find. rewrite filter_app.
  by destruct (filter _ c1).
Qed.

Lemma qmatch_by_id o (d : dict) :
  qmatch (QEq {[ "_id" := VOid o ]}) d = true ↔ d !! "_id" = Some (VOid o).
Proof. by rewrite qmatch_singleton, field_matches_oid. Qed.

(** X6. [send_message] asks for nothing but two identifiers that parse: no
    match, no difference between sender and receiver, no text length.  It
    appends one message to the log, with the sender, receiver and text of the
    request, the clock reading as [created_at] and a new [_id], and answers
    with the serialized form of a stored message of that [_id], which is the
    new message when no older message has this [_id].  The new message is
    then among those [get_messages] returns for the pair with [limit = 0]. *)
Theorem sent_message_is_stored rt s payload u p :
  ObjectId_parse rt (SendMessageRequest.user_id payload) = Some u →
  ObjectId_parse rt (SendMessageRequest.peer_id payload) = Some p →
  let s' := (send_message rt payload s).2 in
  let m := new_message rt u p (SendMessageRequest.text payload) s in
  message_log s' = message_log s ++ [m] ∧
  m !! "sender_id" = Some (VOid u) ∧
  m !! "receiver_id" = Some (VOid p) ∧
  m !! "text" = Some (VStr (SendMessageRequest.text payload)) ∧
  m !! "created_at" = Some (VDate (utcnow rt (clock s))) ∧
  (∃ saved,
     (send_message rt payload s).1 = Ok (serialize rt (Some saved)) ∧
     saved ∈ message_log s' ∧ saved !! "_id" = m !! "_id") ∧
  ((∀ d, d ∈ message_log s → d !! "_id" ≠ m !! "_id") →
   (send_message rt payload s).1 = Ok (serialize rt (Some m))) ∧
  (∃ msgs,
     get_messages rt (SendMessageRequest.user_id payload)
       (SendMessageRequest.peer_id payload) 0 s' =
       (Ok ((λ m, serialize rt (Some m)) <$> msgs), s') ∧
     m ∈ msgs).
Proof.
  intros Hu Hp s' m.
  destruct (send_message_run rt payload s u p Hu Hp) as (s1 & Hrun & Hlog).
  subst s'. rewrite Hrun. cbn [fst snd]. fold m in Hlog.
  assert (m !! "_id" = Some (VOid (new_oid rt (minted s)))) as Hid by done.
  split_and!; [done..| | |].
  - rewrite Hlog, find_one_app.
    destruct (find_one _ (message_log s)) as [d|] eqn:Hd.
    + exists d. apply find_one_Some in Hd as [Hin Hq%qmatch_by_id].
      split_and!; [done| |by rewrite Hid]. apply elem_of_app. by left.
    + exists m. split_and!; [|apply elem_of_app; right; left|done].
      f_equal. f_equal. rewrite find_one_head. unfold find. rewrite filter_cons.
      rewrite decide_True; [done|]. by apply qmatch_by_id.
  - intros Hfresh. rewrite Hlog, find_one_app.
    destruct (find_one _ (message_log s)) as [d|] eqn:Hd.
    + apply find_one_Some in Hd as [Hin Hq%qmatch_by_id].
      destruct (Hfresh d Hin). by rewrite Hid.
    + f_equal. f_equal. rewrite find_one_head. unfold find. rewrite filter_cons.
      rewrite decide_True; [done|]. by apply qmatch_by_id.
  - eexists. split.
    + by rewrite (get_messages_unfold rt _ _ 0 s1 u p), cursor_limit_zero.
    + apply elem_of_cursor_sort, list_elem_of_filter. split.
      * apply new_message_conversation.
      * rewrite Hlog. apply elem_of_app. right. left.
Qed.

Lemma sent_message_is_stored_witness :
  let s := run sample_rt [ PostChatsSend (send_request alice bob "hi") ] initial in
  let payload := send_request carol carol "" in
  let s' := (send_message sample_rt payload s).2 in
  let m := new_message sample_rt 12%N 12%N "" s in
  message_log s' = message_log s ++ [m] ∧
  m !! "sender_id" = Some (VOid 12%N) ∧
  m !! "receiver_id" = Some (VOid 12%N) ∧
  m !! "text" = Some (VStr "") ∧
  m !! "created_at" = Some (VDate (utcnow sample_rt (clock s))) ∧
  (∃ saved,
     (send_message sample_rt payload s).1 = Ok (serialize sample_rt (Some saved)) ∧
     saved ∈ message_log s' ∧ saved !! "_id" = m !! "_id") ∧
  ((∀ d, d ∈ message_log s → d !! "_id" ≠ m !! "_id") →
   (send_message sample_rt payload s).1 = Ok (serialize sample_rt (Some m))) ∧
  (∃ msgs,
     get_messages sample_rt carol carol 0 s' =
       (Ok ((λ m, serialize sample_rt (Some m)) <$> msgs), s') ∧
     m ∈ msgs).
Proof.
  apply (sent_message_is_stored sample_rt _ (send_request carol carol "") 12%N 12%N);
    reflexivity.
Defined.

(** What a request does to the message log: nothing, or one message more. *)
Lemma handle_message_log rt r s :
  message_log (handle rt r s) = message_log s ∨
  ∃ m, message_log (handle rt r s) = message_log s ++ [m].
Proof.
  destruct r as [details|payload|user_id|payload|user_id|user_id peer_id limit|payload];
    cbn [handle].
  - left. by apply preserves_create_or_complete_profile.
  - left. by apply preserves_update_profile.
  - left. by rewrite read_only_next_profile.
  - left. by apply preserves_like_profile.
  - left. by rewrite read_only_list_chats.
  - left. by rewrite read_only_get_messages.
  - destruct (ObjectId_parse rt (SendMessageRequest.user_id payload)) as [u|] eqn:Hu.
    2: { left. unfold send_message. by rewrite to_oid_invalid. }
    destruct (ObjectId_parse rt (SendMessageRequest.peer_id payload)) as [p|] eqn:Hp.
    2: { left. unfold send_message. rewrite (to_oid_valid rt _ u) by done.
         by rewrite to_oid_invalid. }
    right. destruct (send_message_run rt payload s u p Hu Hp) as (s1 & -> & Hlog).
    eauto.
Qed.

(** X7. The message log is append-only: whatever requests follow, no message
    is removed, moved or changed, so the log before is a prefix of the log
    after and every message keeps its place and its content. *)
Theorem message_log_append_only rt reqs s :
  message_log s `prefix_of` message_log (run rt reqs s) ∧
  ∀ i m, message_log s !! i = Some m → message_log (run rt reqs s) !! i = Some m.
Proof.
  assert (message_log s `prefix_of` message_log (run rt reqs s)) as Hpre.
  { induction reqs as [|r reqs IH] using rev_ind; [done|].
    rewrite run_snoc.
    destruct (handle_message_log rt r (run rt reqs s)) as [->|[m ->]];
      [done|by apply prefix_app_r]. }
  split; [done|]. intros i m Hi. by eapply prefix_lookup_Some.
Qed.

(** ** More on the ledger *)

Lemma holds_like_upsert_other rt A B act s a b :
  (a, b) ≠ (A, B) →
  (∃ d, d ∈ ledger_upsert rt A B act s ∧ is_like a b d) ↔ holds_like s a b.
Proof.
  intros Hab.
  assert (∀ d, is_like a b d → ¬ is_action A B d) as Hother.
  { intros d [Hact _] Hact'. destruct (is_action_inj _ _ _ _ _ Hact Hact').
    congruence. }
  split; intros (d & Hd & Hlike); exists d; (split; [|done]);
    by apply (ledger_upsert_frame rt A B act s d (Hother d Hlike)).
Qed.

(** X8. A like of A on B (A ≠ B) answers [matched = true] exactly when the
    ledger it is sent to already holds a like of B on A; a decision with any
    other action answers [matched = false], whatever the ledger holds. *)
Theorem matched_iff_reciprocal_like rt s payload A B :
  ObjectId_parse rt (LikeRequest.user_id payload) = Some A →
  ObjectId_parse rt (LikeRequest.target_id payload) = Some B →
  A ≠ B →
  ∃ answer,
    (like_profile rt payload s).1 = Ok {| matched := answer |} ∧
    (answer = true ↔ LikeRequest.action payload = "like" ∧ holds_like s B A).
Proof.
  intros HA HB Hne.
  destruct (like_profile_run rt payload s A B HA HB Hne) as (s' & -> & Hl & _).
  eexists. split; [done|]. rewrite Hl.
  destruct (decide (LikeRequest.action payload = "like")) as [Hlike|Hother].
  - rewrite bool_decide_eq_true_2, bool_decide_eq_true by done.
    rewrite <- (holds_like_upsert_other rt A B (LikeRequest.action payload) s B A)
      by congruence.
    split.
    + intros Hsome. split; [done|].
      destruct (find_one _ _) as [d|] eqn:Hd; [|done].
      apply find_one_Some in Hd as [Hin Hq%qmatch_like]. eauto.
    + intros [_ (d & Hin & Hd)] Hnone. rewrite find_one_None in Hnone.
      apply (Hnone d Hin). by apply qmatch_like.
  - rewrite bool_decide_eq_false_2 by done. naive_solver.
Qed.

Lemma matched_iff_reciprocal_like_witness :
  let s := run sample_rt [ PostProfilesLike (like_request bob alice "like") ] initial in
  ∃ answer,
    (like_profile sample_rt (like_request alice bob "like") s).1 =
      Ok {| matched := answer |} ∧
    (answer = true ↔
     LikeRequest.action (like_request alice bob "like") = "like" ∧
     holds_like s 11%N 10%N).
Proof.
  apply (matched_iff_reciprocal_like sample_rt _ (like_request alice bob "like")
           10%N 11%N).
  - reflexivity.
  - reflexivity.
  - discriminate.
Defined.

(** X9. A first decision of A on B (A ≠ B, no record of the pair yet) adds
    one record at the end of the ledger: actor A, target B, the action of the
    request, a new [_id], the first clock reading of the call as [updated_at]
    and the second, later, reading as [created_at]. *)
Theorem first_decision_appends rt s payload A B :
  ObjectId_parse rt (LikeRequest.user_id payload) = Some A →
  ObjectId_parse rt (LikeRequest.target_id payload) = Some B →
  A ≠ B →
  (∀ d, d ∈ ledger s → ¬ is_action A B d) →
  ∃ d,
    ledger (like_profile rt payload s).2 = ledger s ++ [d] ∧
    is_action A B d ∧
    d !! "action" = Some (VStr (LikeRequest.action payload)) ∧
    d !! "updated_at" = Some (VDate (utcnow rt (clock s))) ∧
    d !! "created_at" = Some (VDate (utcnow rt (S (clock s)))) ∧
    d !! "_id" = Some (VOid (new_oid rt (minted s))) ∧
    clock (like_profile rt payload s).2 = S (S (clock s)).
Proof.
  intros HA HB Hne Hnone.
  destruct (like_profile_run rt payload s A B HA HB Hne)
    as (s' & -> & Hl & _ & Hclock).
  cbn [snd]. rewrite Hl.
  destruct (ledger_upsert_cases rt A B (LikeRequest.action payload) s)
    as [(i & d & Hi & Hd & _)|[_ ->]].
  - destruct (Hnone d); [|done]. by eapply list_elem_of_lookup_2.
  - eexists. split; [done|]. split_and!; done.
Qed.

Lemma first_decision_appends_witness :
  let s := initial in
  let payload := like_request alice bob "dislike" in
  ∃ d,
    ledger (like_profile sample_rt payload s).2 = ledger s ++ [d] ∧
    is_action 10%N 11%N d ∧
    d !! "action" = Some (VStr (LikeRequest.action payload)) ∧
    d !! "updated_at" = Some (VDate (utcnow sample_rt (clock s))) ∧
    d !! "created_at" = Some (VDate (utcnow sample_rt (S (clock s)))) ∧
    d !! "_id" = Some (VOid (new_oid sample_rt (minted s))) ∧
    clock (like_profile sample_rt payload s).2 = S (S (clock s)).
Proof.
  apply (first_decision_appends sample_rt initial
           (like_request alice bob "dislike") 10%N 11%N).
  - reflexivity.
  - reflexivity.
  - discriminate.
  - intros d Hd. apply elem_of_nil in Hd. destruct Hd.
Defined.

(** X10. A decision of A on B leaves the record of every other ordered pair
    in the ledger as it was, the record of B on A included: such a record is
    in the ledger after the call exactly when it was there before. *)
Theorem decision_touches_one_pair rt s payload A B d :
  ObjectId_parse rt (LikeRequest.user_id payload) = Some A →
  ObjectId_parse rt (LikeRequest.target_id payload) = Some B →
  ¬ is_action A B d →
  d ∈ ledger (like_profile rt payload s).2 ↔ d ∈ ledger s.
Proof.
  intros HA HB Hd. destruct (decide (A = B)) as [<-|Hne].
  - by rewrite (like_profile_self rt payload s A).
  - destruct (like_profile_run rt payload s A B HA HB Hne) as (s' & -> & Hl & _).
    cbn [snd]. rewrite Hl. by apply ledger_upsert_frame.
Qed.

Lemma decision_touches_one_pair_witness :
  let s := run sample_rt [ PostProfilesLike (like_request bob alice "like") ] initial in
  let d := action_new 11%N 10%N "like" 1000 1001 4096%N in
  d ∈ ledger (like_profile sample_rt (like_request alice bob "dislike") s).2 ↔
  d ∈ ledger s.
Proof.
  apply (decision_touches_one_pair sample_rt _ (like_request alice bob "dislike")
           10%N 11%N).
  - reflexivity.
  - reflexivity.
  - intros [H _]. vm_compute in H. discriminate.
Defined.

Lemma ledger_upsert_column rt a b act s k :
  k ≠ "action" → k ≠ "updated_at" →
  ((.!! k) <$> ledger s) `prefix_of` ((.!! k) <$> ledger_upsert rt a b act s).
Proof.
  intros H1 H2.
  destruct (ledger_upsert_cases rt a b act s)
    as [(i & d & Hi & Hd & _ & ->)|[_ ->]].
  - rewrite list_fmap_insert, action_set_lookup by done.
    rewrite list_insert_id; [done|]. by rewrite list_lookup_fmap, Hi.
  - rewrite fmap_app. by apply prefix_app_r.
Qed.

(** X11. No request removes or moves an action record, and none changes a
    field of a record other than [action] and [updated_at]: for any other
    key, [created_at], [_id], [user_id] and [target_id] among them, the
    values down the ledger before are a prefix of the values after. *)
Theorem ledger_records_kept rt reqs s k :
  k ≠ "action" → k ≠ "updated_at" →
  ((.!! k) <$> ledger s) `prefix_of` ((.!! k) <$> ledger (run rt reqs s)) ∧
  ∀ i d, ledger s !! i = Some d →
         ∃ d', ledger (run rt reqs s) !! i = Some d' ∧ d' !! k = d !! k.
Proof.
  intros H1 H2.
  assert (((.!! k) <$> ledger s) `prefix_of` ((.!! k) <$> ledger (run rt reqs s)))
    as Hpre.
  { induction reqs as [|r reqs IH] using rev_ind; [done|].
    rewrite run_snoc.
    destruct (handle_ledger rt r (run rt reqs s)) as [->|(a & b & act & _ & ->)];
      [done|]. etrans; [done|]. by apply ledger_upsert_column. }
  split; [done|]. intros i d Hi.
  assert (((.!! k) <$> ledger (run rt reqs s)) !! i = Some (d !! k)) as Hk.
  { eapply prefix_lookup_Some; [|done]. by rewrite list_lookup_fmap, Hi. }
  rewrite list_lookup_fmap in Hk.
  destruct (ledger (run rt reqs s) !! i) as [d'|]; [|done].
  exists d'. split; [done|]. by injection Hk.
Qed.

Lemma ledger_records_kept_witness :
  let s := run sample_rt [ PostProfilesLike (like_request alice bob "like") ] initial in
  let reqs := [ PostProfilesLike (like_request alice bob "dislike");
                PostProfilesLike (like_request bob alice "like") ] in
  ((.!! "created_at") <$> ledger s) `prefix_of`
    ((.!! "created_at") <$> ledger (run sample_rt reqs s)) ∧
  ∀ i d, ledger s !! i = Some d →
         ∃ d', ledger (run sample_rt reqs s) !! i = Some d' ∧
               d' !! "created_at" = d !! "created_at".
Proof.
  apply (ledger_records_kept sample_rt _ _ "created_at"); discriminate.
Defined.

Lemma NoDup_pair_unique (l : collection) d d' :
  NoDup (pair_of <$> l) → d ∈ l → d' ∈ l → pair_of d = pair_of d' → d = d'.
Proof.
  intros Hnd [i Hi]%list_elem_of_lookup [j Hj]%list_elem_of_lookup Heq.
  assert (i = j) as ->.
  { eapply NoDup_lookup; [done| |]; rewrite list_lookup_fmap.
    - by rewrite Hi.
    - rewrite Hj. cbn. by rewrite Heq. }
  congruence.
Qed.

Lemma not_like_dislike (d : dict) :
  d !! "action" = Some (VStr "dislike") →
  field_matches d "action" (VStr "like") ≠ true.
Proof. intros H. unfold field_matches. rewrite H. by vm_compute. Qed.

(** X12. On a store built by the handlers, a dislike of B on A answers
    [matched = false] and withdraws B's like: the ledger then holds no like of
    B on A, B is not in A's chat list and A is not in B's. *)
Theorem dislike_withdraws_match rt reqs sA sB A B :
  ObjectId_parse rt sA = Some A →
  ObjectId_parse rt sB = Some B →
  A ≠ B →
  let s := run rt reqs initial in
  let s' := handle rt (PostProfilesLike (like_request sB sA "dislike")) s in
  (like_profile rt (like_request sB sA "dislike") s).1 = Ok {| matched := false |} ∧
  ¬ holds_like s' B A ∧
  (∃ peers, list_chats rt sA s' = (Ok peers, s') ∧ ¬ ∃ r, r ∈ peers ∧ shows B r) ∧
  (∃ peers, list_chats rt sB s' = (Ok peers, s') ∧ ¬ ∃ r, r ∈ peers ∧ shows A r).
Proof.
  intros HA HB Hne s s'.
  assert (¬ holds_like s' B A) as Hgone.
  { intros (d' & Hd' & Hact' & Hlike').
    destruct (handle_like rt s sB sA "dislike" B A) as [Hl _]; [done..|].
    fold s' in Hl.
    destruct (ledger_upsert_holds rt B A "dislike" s) as (d & Hd & Hact & Hdis).
    rewrite <- Hl in Hd.
    assert (d' = d) as ->.
    { apply (NoDup_pair_unique (ledger s')); [|done..|].
      - subst s' s. rewrite <- run_snoc. apply ledger_NoDup.
      - apply pair_of_is_action in Hact, Hact'. congruence. }
    by apply (not_like_dislike d). }
  assert (well_formed s') as Hwf
    by apply handle_well_formed, run_well_formed, initial_well_formed.
  split_and!.
  - destruct (like_profile_run rt (like_request sB sA "dislike") s B A)
      as (s1 & -> & _); done.
  - done.
  - destruct (list_chats_total rt sA s' A HA Hwf) as [peers Hpeers].
    exists peers. split; [done|].
    intros (_ & HBA & _)%(list_chats_Ok rt sA s' A); [done..|by rewrite Hpeers].
  - destruct (list_chats_total rt sB s' B HB Hwf) as [peers Hpeers].
    exists peers. split; [done|].
    intros (HBA & _ & _)%(list_chats_Ok rt sB s' B); [done..|by rewrite Hpeers].
Qed.

Lemma dislike_withdraws_match_witness :
  let reqs := three_profiles ++
                [ PostProfilesLike (like_request alice bob "like");
                  PostProfilesLike (like_request bob alice "like") ] in
  let s := run sample_rt reqs initial in
  let s' := handle sample_rt (PostProfilesLike (like_request bob alice "dislike")) s in
  (like_profile sample_rt (like_request bob alice "dislike") s).1 =
    Ok {| matched := false |} ∧
  ¬ holds_like s' 11%N 10%N ∧
  (∃ peers, list_chats sample_rt alice s' = (Ok peers, s') ∧
            ¬ ∃ r, r ∈ peers ∧ shows 11%N r) ∧
  (∃ peers, list_chats sample_rt bob s' = (Ok peers, s') ∧
            ¬ ∃ r, r ∈ peers ∧ shows 10%N r).
Proof.
  apply (dislike_withdraws_match sample_rt _ alice bob 10%N 11%N).
  - reflexivity.
  - reflexivity.
  - discriminate.
Defined.

(** X13. Every action record in a store built by the handlers is complete
    and is between two different users: its [user_id] and [target_id] are
    two distinct identifiers, its [action] is a string, its [updated_at] and
    [created_at] are dates and it has an [_id]. *)
Theorem ledger_records_complete rt reqs :
  Forall (λ d, ∃ a b act t1 t2,
            is_action a b d ∧ a ≠ b ∧
            d !! "action" = Some (VStr act) ∧
            d !! "updated_at" = Some (VDate t1) ∧
            d !! "created_at" = Some (VDate t2) ∧
            is_Some (d !! "_id"))
    (ledger (run rt reqs initial)).
Proof.
  induction reqs as [|r reqs IH] using rev_ind; [apply Forall_nil_2|].
  rewrite run_snoc. set (s := run rt reqs initial) in *.
  destruct (handle_ledger rt r s) as [->|(a & b & act & Hne & ->)]; [done|].
  destruct (ledger_upsert_cases rt a b act s)
    as [(i & d & Hi & Hd & _ & ->)|[_ ->]].
  - apply Forall_insert; [done|].
    rewrite Forall_forall in IH.
    destruct (IH d) as (a' & b' & act' & t1 & t2 & Hact & Hne' & _ & _ & Hc & Hid);
      [by eapply list_elem_of_lookup_2|].
    exists a', b', act, (utcnow rt (clock s)), t2. split_and!.
    + by apply action_set_is_action.
    + done.
    + apply action_set_action.
    + apply action_set_updated_at.
    + by rewrite action_set_lookup.
    + by rewrite action_set_lookup.
  - apply Forall_app. split; [done|]. apply Forall_singleton.
    exists a, b, act, (utcnow rt (clock s)), (utcnow rt (S (clock s))).
    split_and!; done.
Qed.

(** ** Facts about [update_one] and [find_one] *)

Lemma find_one_Some_iff q c d :
  find_one q c = Some d ↔
  ∃ i, c !! i = Some d ∧ qmatch q d = true ∧
       ∀ j d', c !! j = Some d' → (j < i)%nat → qmatch q d' ≠ true.
Proof.
  unfold find_one. rewrite fmap_Some. split.
  - intros ([i d'] & H%list_find_Some & ->). exists i. naive_solver.
  - intros (i & Hi & Hq & Hlt). exists (i, d). split; [|done].
    apply list_find_Some. naive_solver.
Qed.

Lemma find_one_insert q (c : collection) i d d' :
  c !! i = Some d →
  (∀ j d0, c !! j = Some d0 → (j < i)%nat → qmatch q d0 ≠ true) →
  qmatch q d' = true →
  find_one q (<[i := d']> c) = Some d'.
Proof.
  intros Hi Hlt Hq. apply find_one_Some_iff. exists i. split_and!.
  - apply list_lookup_insert_eq. by eapply lookup_lt_Some.
  - done.
  - intros j d0 Hj Hji. rewrite list_lookup_insert_ne in Hj by lia. eauto.
Qed.

Lemma find_one_snoc q (c : collection) d :
  (∀ d0, d0 ∈ c → qmatch q d0 ≠ true) → qmatch q d = true →
  find_one q (c ++ [d]) = Some d.
Proof.
  intros Hnone Hq. rewrite find_one_app.
  rewrite (proj2 (find_one_None q c)) by done.
  rewrite find_one_head. unfold find. rewrite filter_cons.
  by rewrite decide_True.
Qed.

(** The two ways [update_one] goes. *)
Lemma update_one_cases flt set soi upsert fresh c :
  (∃ i d, c !! i = Some d ∧ qmatch (QEq flt) d = true ∧
          (∀ j d', c !! j = Some d' → (j < i)%nat → qmatch (QEq flt) d' ≠ true) ∧
          update_one flt set soi upsert fresh c = (<[i := set ∪ d]> c, 1, None)) ∨
  ((∀ d, d ∈ c → qmatch (QEq flt) d ≠ true) ∧
   (update_one flt set soi upsert fresh c).1.2 = 0 ∧
   (update_one flt set soi upsert fresh c).1.1 =
     if upsert
     then c ++ [if (set ∪ (soi ∪ flt)) !! "_id" is Some _
                then set ∪ (soi ∪ flt)
                else <["_id" := VOid fresh]> (set ∪ (soi ∪ flt))]
     else c).
Proof.
  unfold update_one. destruct (list_find _ c) as [[i d]|] eqn:E.
  - left. apply list_find_Some in E as (Hi & Hd & Hlt). exists i, d. naive_solver.
  - right. apply list_find_None in E. rewrite Forall_forall in E.
    split; [done|]. by destruct upsert.
Qed.

(** ** Profiles *)

Lemma create_profile_run rt details s u :
  ObjectId_parse rt (ProfileDetails.user_id details) = Some u →
  ∃ s',
    create_or_complete_profile rt details s =
      (Ok (serialize rt (find_one (QEq {[ "user_id" := VOid u ]}) (profiles s'))), s') ∧
    profiles s' =
      (update_one {[ "user_id" := VOid u ]}
         (profile_set details u (utcnow rt (clock s)))
         {[ "created_at" := VDate (utcnow rt (S (clock s))) ]}
         true (new_oid rt (minted s)) (profiles s)).1.1.
Proof.
  intros Hu. unfold create_or_complete_profile.
  rewrite (to_oid_valid rt _ u) by done.
  unfold bind, now, db_update_one, db_find_one, ret. cbn [clock minted db].
  unfold profiles, profile_set.
  destruct (update_one _ _ _ _ _ _) as [[c mc] up] eqn:E.
  eexists. split; [reflexivity|]. cbn [fst]. apply coll_insert.
Qed.

Lemma profile_set_user_id details u t (d : dict) :
  (profile_set details u t ∪ d) !! "user_id" = Some (VOid u).
Proof.
  rewrite lookup_union. unfold profile_set.
  by rewrite lookup_insert_eq, union_Some_l.
Qed.

Lemma profile_set_other details u t (d : dict) k :
  profile_set details u t !! k = None → (profile_set details u t ∪ d) !! k = d !! k.
Proof. intros H. rewrite lookup_union, H. by destruct (d !! k). Qed.

Lemma profile_set_lookup_Some details u t (d : dict) k v :
  profile_set details u t !! k = Some v →
  (profile_set details u t ∪ d) !! k = Some v.
Proof. intros H. by rewrite lookup_union, H, union_Some_l. Qed.

(** The profile that the upsert inserts for a user without one. *)
Lemma profile_new_eq details u t1 t2 fresh :
  (if (profile_set details u t1 ∪
         ({[ "created_at" := VDate t2 ]} ∪ {[ "user_id" := VOid u ]})) !! "_id"
      is Some _
   then profile_set details u t1 ∪
          ({[ "created_at" := VDate t2 ]} ∪ {[ "user_id" := VOid u ]})
   else <["_id" := VOid fresh]>
          (profile_set details u t1 ∪
             ({[ "created_at" := VDate t2 ]} ∪ {[ "user_id" := VOid u ]}))) =
  profile_new details u t1 t2 fresh.
Proof.
  rewrite profile_set_other by done.
  by rewrite lookup_union, lookup_singleton_ne, lookup_singleton_ne.
Qed.

Lemma profile_new_lookup details u t1 t2 fresh k v :
  profile_set details u t1 !! k = Some v →
  profile_new details u t1 t2 fresh !! k = Some v.
Proof.
  intros H. unfold profile_new.
  rewrite lookup_insert_ne by (intros <-; discriminate H).
  by apply profile_set_lookup_Some.
Qed.

Lemma get_my_profile_found rt sU s u p :
  ObjectId_parse rt sU = Some u →
  find_one (QEq {[ "user_id" := VOid u ]}) (profiles s) = Some p →
  get_my_profile rt sU s = (Ok (serialize rt (Some p)), s).
Proof.
  intros Hu Hp. unfold get_my_profile. rewrite (to_oid_valid rt _ u) by done.
  unfold bind, db_find_one. fold (profiles s). rewrite Hp. cbn [found].
  apply find_one_Some in Hp as [_ Hq%qmatch_by_user].
  by rewrite (dict_truthy_lookup _ _ _ Hq).
Qed.

(** X14. [create_or_complete_profile] stores what it is given and answers
    with it: the answer is the serialized profile [p] of the user, which is
    the first profile of that user in the store and so what [get_my_profile]
    answers next; [p] carries the nickname, bio, tags, photos and age of the
    request, a missing bio or age as [None], and the clock reading as
    [updated_at].  When the user had a profile, it is updated where it stands
    and keeps [created_at], [_id] and any field the request does not set;
    when the user had none, [p] is appended with the second clock reading as
    [created_at] and a new [_id]. *)
Theorem profile_details_stored rt s details u :
  ObjectId_parse rt (ProfileDetails.user_id details) = Some u →
  let s' := (create_or_complete_profile rt details s).2 in
  ∃ p,
    create_or_complete_profile rt details s = (Ok (serialize rt (Some p)), s') ∧
    get_my_profile rt (ProfileDetails.user_id details) s' =
      (Ok (serialize rt (Some p)), s') ∧
    p ∈ profiles s' ∧ profile_of u p ∧
    p !! "nickname" = Some (VStr (ProfileDetails.nickname details)) ∧
    p !! "bio" = Some (opt_value VStr (ProfileDetails.bio details)) ∧
    p !! "tags" = Some (VStrs (ProfileDetails.tags details)) ∧
    p !! "photos" = Some (VStrs (ProfileDetails.photos details)) ∧
    p !! "age" = Some (opt_value VInt (ProfileDetails.age details)) ∧
    p !! "updated_at" = Some (VDate (utcnow rt (clock s))) ∧
    match find_one (QEq {[ "user_id" := VOid u ]}) (profiles s) with
    | Some old =>
        length (profiles s') = length (profiles s) ∧
        p !! "created_at" = old !! "created_at" ∧
        p !! "_id" = old !! "_id" ∧
        ∀ k, profile_set details u (utcnow rt (clock s)) !! k = None →
             p !! k = old !! k
    | None =>
        profiles s' = profiles s ++ [p] ∧
        p !! "created_at" = Some (VDate (utcnow rt (S (clock s)))) ∧
        p !! "_id" = Some (VOid (new_oid rt (minted s)))
    end.
Proof.
  intros Hu s'.
  destruct (create_profile_run rt details s u Hu) as (s1 & Hrun & Hprof).
  subst s'. rewrite Hrun. cbn [snd].
  destruct (update_one_cases {[ "user_id" := VOid u ]}
              (profile_set details u (utcnow rt (clock s)))
              {[ "created_at" := VDate (utcnow rt (S (clock s))) ]}
              true (new_oid rt (minted s)) (profiles s))
    as [(i & d & Hi & Hd & Hlt & Hupd)|(Hnone & _ & Hupd)].
  - rewrite Hupd in Hprof. cbn [fst] in Hprof.
    assert (find_one (QEq {[ "user_id" := VOid u ]}) (profiles s1) =
              Some (profile_set details u (utcnow rt (clock s)) ∪ d)) as Hp.
    { rewrite Hprof. eapply find_one_insert; [exact Hi|exact Hlt|].
      apply qmatch_by_user, profile_set_user_id. }
    assert (find_one (QEq {[ "user_id" := VOid u ]}) (profiles s) = Some d) as ->.
    { apply find_one_Some_iff. exists i. split_and!; [exact Hi|exact Hd|exact Hlt]. }
    exists (profile_set details u (utcnow rt (clock s)) ∪ d). rewrite Hp.
    split; [reflexivity|]. split; [by apply (get_my_profile_found rt _ _ u)|].
    split; [by apply find_one_Some in Hp as [? _]|].
    split; [apply profile_set_user_id|].
    do 6 (split; [by apply profile_set_lookup_Some|]).
    split; [by rewrite Hprof, length_insert|].
    split; [by apply profile_set_other|].
    split; [by apply profile_set_other|].
    intros k Hk. by apply profile_set_other.
  - rewrite Hupd, profile_new_eq in Hprof.
    rewrite (proj2 (find_one_None _ (profiles s)) Hnone).
    assert (find_one (QEq {[ "user_id" := VOid u ]}) (profiles s1) =
              Some (profile_new details u (utcnow rt (clock s))
                      (utcnow rt (S (clock s))) (new_oid rt (minted s)))) as Hp.
    { rewrite Hprof. apply find_one_snoc; [exact Hnone|].
      apply qmatch_by_user, profile_new_lookup. reflexivity. }
    eexists. rewrite Hp.
    split; [reflexivity|]. split; [by apply (get_my_profile_found rt _ _ u)|].
    split; [by apply find_one_Some in Hp as [? _]|].
    split; [by apply profile_new_lookup|].
    do 6 (split; [by apply profile_new_lookup|]).
    split; [exact Hprof|].
    split; [|apply lookup_insert_eq].
    unfold profile_new. rewrite lookup_insert_ne by done.
    rewrite profile_set_other by done.
    by rewrite lookup_union, lookup_singleton_eq, union_Some_l.
Qed.

Lemma profile_details_stored_witness :
  let s := run sample_rt three_profiles initial in
  let details := profile_details bob "Bobby" in
  let s' := (create_or_complete_profile sample_rt details s).2 in
  ∃ p,
    create_or_complete_profile sample_rt details s =
      (Ok (serialize sample_rt (Some p)), s') ∧
    get_my_profile sample_rt (ProfileDetails.user_id details) s' =
      (Ok (serialize sample_rt (Some p)), s') ∧
    p ∈ profiles s' ∧ profile_of 11%N p ∧
    p !! "nickname" = Some (VStr (ProfileDetails.nickname details)) ∧
    p !! "bio" = Some (opt_value VStr (ProfileDetails.bio details)) ∧
    p !! "tags" = Some (VStrs (ProfileDetails.tags details)) ∧
    p !! "photos" = Some (VStrs (ProfileDetails.photos details)) ∧
    p !! "age" = Some (opt_value VInt (ProfileDetails.age details)) ∧
    p !! "updated_at" = Some (VDate (utcnow sample_rt (clock s))) ∧
    match find_one (QEq {[ "user_id" := VOid 11%N ]}) (profiles s) with
    | Some old =>
        length (profiles s') = length (profiles s) ∧
        p !! "created_at" = old !! "created_at" ∧
        p !! "_id" = old !! "_id" ∧
        ∀ k, profile_set details 11%N (utcnow sample_rt (clock s)) !! k = None →
             p !! k = old !! k
    | None =>
        profiles s' = profiles s ++ [p] ∧
        p !! "created_at" = Some (VDate (utcnow sample_rt (S (clock s)))) ∧
        p !! "_id" = Some (VOid (new_oid sample_rt (minted s)))
    end.
Proof.
  apply (profile_details_stored sample_rt _ (profile_details bob "Bobby") 11%N).
  reflexivity.
Defined.

Lemma changes_of_empty payload :
  changes_of payload = ∅ ↔
  ProfileUpdate.nickname payload = None ∧ ProfileUpdate.bio payload = None ∧
  ProfileUpdate.tags payload = None ∧ ProfileUpdate.photos payload = None ∧
  ProfileUpdate.age payload = None.
Proof.
  destruct payload as [uid [n|] [b|] [t|] [p|] [a|]]; unfold changes_of; cbn;
    (split; [intros H; by apply insert_non_empty in H|naive_solver]) ||
    (split; done).
Qed.

Lemma update_profile_run rt payload s u :
  ObjectId_parse rt (ProfileUpdate.user_id payload) = Some u →
  changes_of payload ≠ ∅ →
  ∃ s' upd,
    upd = update_one {[ "user_id" := VOid u ]}
            (<["updated_at" := VDate (utcnow rt (clock s))]> (changes_of payload))
            ∅ false (new_oid rt (minted s)) (profiles s) ∧
    profiles s' = upd.1.1 ∧
    clock s' = S (clock s) ∧
    update_profile rt payload s =
      if bool_decide (upd.1.2 = 0)
      then (Raise (HTTPException 404 "Profile not found"), s')
      else (Ok (serialize rt (find_one (QEq {[ "user_id" := VOid u ]}) (profiles s'))),
            s').
Proof.
  intros Hu Hch. unfold update_profile. rewrite (to_oid_valid rt _ u) by done.
  fold (changes_of payload). unfold dict_truthy.
  rewrite bool_decide_eq_false_2 by done. cbn [negb].
  unfold bind, now, db_update_one, db_find_one, ret, raise. cbn [clock minted db].
  fold (profiles {| db := db s; clock := S (clock s); minted := minted s |}).
  change (profiles {| db := db s; clock := S (clock s); minted := minted s |})
    with (profiles s).
  destruct (update_one _ _ _ _ _ _) as [[c mc] up] eqn:E.
  eexists _, _. split; [reflexivity|]. cbn [fst snd].
  split; [|split; [|by destruct (bool_decide (mc = 0))]].
  - unfold profiles. by rewrite coll_insert.
  - done.
Qed.

Lemma changes_lookup payload t (old : dict) :
  let new := <["updated_at" := VDate t]> (changes_of payload) ∪ old in
  new !! "nickname" = updated VStr (ProfileUpdate.nickname payload) (old !! "nickname") ∧
  new !! "bio" = updated VStr (ProfileUpdate.bio payload) (old !! "bio") ∧
  new !! "tags" = updated VStrs (ProfileUpdate.tags payload) (old !! "tags") ∧
  new !! "photos" = updated VStrs (ProfileUpdate.photos payload) (old !! "photos") ∧
  new !! "age" = updated VInt (ProfileUpdate.age payload) (old !! "age") ∧
  new !! "updated_at" = Some (VDate t).
Proof.
  cbn zeta. rewrite !lookup_union.
  destruct payload as [uid [n|] [b|] [tg|] [p|] [a|]]; unfold changes_of; cbn;
    split_and!; by destruct (old !! _).
Qed.

Lemma changes_other payload t (old : dict) k :
  k ≠ "nickname" → k ≠ "bio" → k ≠ "tags" → k ≠ "photos" → k ≠ "age" →
  k ≠ "updated_at" →
  (<["updated_at" := VDate t]> (changes_of payload) ∪ old) !! k = old !! k.
Proof.
  intros. rewrite lookup_union, lookup_insert_ne by done.
  assert (changes_of payload !! k = None) as ->.
  { unfold changes_of, change.
    repeat case_match; rewrite ?lookup_insert_ne by done; apply lookup_empty. }
  by destruct (old !! k).
Qed.

(** X15. [update_profile] refuses a request that sets no field with 400 "No
    changes provided", before it looks for the profile and without reading
    the clock; a request that sets a field for a user without a profile gets
    404 "Profile not found" and leaves the profiles as they were.  A request
    sets no field exactly when its five optional fields are all [None]. *)
Theorem profile_update_refused rt s payload u :
  ObjectId_parse rt (ProfileUpdate.user_id payload) = Some u →
  (changes_of payload = ∅ ↔
   ProfileUpdate.nickname payload = None ∧ ProfileUpdate.bio payload = None ∧
   ProfileUpdate.tags payload = None ∧ ProfileUpdate.photos payload = None ∧
   ProfileUpdate.age payload = None) ∧
  (changes_of payload = ∅ →
   update_profile rt payload s = rejected 400 "No changes provided" s) ∧
  (changes_of payload ≠ ∅ → ¬ has_profile s u →
   (update_profile rt payload s).1 =
     Raise (HTTPException 404 "Profile not found") ∧
   profiles (update_profile rt payload s).2 = profiles s).
Proof.
  intros Hu. split_and!.
  - apply changes_of_empty.
  - intros Hempty. unfold update_profile. rewrite (to_oid_valid rt _ u) by done.
    fold (changes_of payload). rewrite Hempty. reflexivity.
  - intros Hch Hnone.
    destruct (update_profile_run rt payload s u Hu Hch)
      as (s' & upd & Hupd & Hprof & _ & ->).
    destruct (update_one_cases {[ "user_id" := VOid u ]}
                (<["updated_at" := VDate (utcnow rt (clock s))]> (changes_of payload))
                ∅ false (new_oid rt (minted s)) (profiles s))
      as [(i & d & Hi & Hd%qmatch_by_user & _)|(_ & Hmc & Hc)].
    + destruct Hnone. exists d. split; [by eapply list_elem_of_lookup_2|done].
    + rewrite <- Hupd in Hmc, Hc. rewrite Hmc.
      rewrite bool_decide_eq_true_2 by done. cbn [fst snd].
      split; [done|]. by rewrite Hprof, Hc.
Qed.

Lemma profile_update_refused_witness :
  let s := run sample_rt three_profiles initial in
  let payload := profile_update "00000000000000000000000d" (Some "Dan") in
  (changes_of payload = ∅ ↔
   ProfileUpdate.nickname payload = None ∧ ProfileUpdate.bio payload = None ∧
   ProfileUpdate.tags payload = None ∧ ProfileUpdate.photos payload = None ∧
   ProfileUpdate.age payload = None) ∧
  (changes_of payload = ∅ →
   update_profile sample_rt payload s = rejected 400 "No changes provided" s) ∧
  (changes_of payload ≠ ∅ → ¬ has_profile s 13%N →
   (update_profile sample_rt payload s).1 =
     Raise (HTTPException 404 "Profile not found") ∧
   profiles (update_profile sample_rt payload s).2 = profiles s).
Proof.
  apply (profile_update_refused sample_rt _
           (profile_update "00000000000000000000000d" (Some "Dan")) 13%N).
  reflexivity.
Defined.

(** X16. [update_profile] on a user with a profile changes that profile where
    it stands and answers with its serialized form: each of nickname, bio,
    tags, photos and age takes the value of the request when the request
    gives one and keeps its value otherwise, [updated_at] becomes the clock
    reading, and every other field ([user_id], [created_at], [_id], ...) is
    kept.  [get_my_profile] answers the same next. *)
Theorem profile_update_applied rt s payload u old :
  ObjectId_parse rt (ProfileUpdate.user_id payload) = Some u →
  changes_of payload ≠ ∅ →
  find_one (QEq {[ "user_id" := VOid u ]}) (profiles s) = Some old →
  let s' := (update_profile rt payload s).2 in
  ∃ p,
    update_profile rt payload s = (Ok (serialize rt (Some p)), s') ∧
    get_my_profile rt (ProfileUpdate.user_id payload) s' =
      (Ok (serialize rt (Some p)), s') ∧
    p ∈ profiles s' ∧
    length (profiles s') = length (profiles s) ∧
    p !! "nickname" = updated VStr (ProfileUpdate.nickname payload) (old !! "nickname") ∧
    p !! "bio" = updated VStr (ProfileUpdate.bio payload) (old !! "bio") ∧
    p !! "tags" = updated VStrs (ProfileUpdate.tags payload) (old !! "tags") ∧
    p !! "photos" = updated VStrs (ProfileUpdate.photos payload) (old !! "photos") ∧
    p !! "age" = updated VInt (ProfileUpdate.age payload) (old !! "age") ∧
    p !! "updated_at" = Some (VDate (utcnow rt (clock s))) ∧
    (∀ k, k ≠ "nickname" → k ≠ "bio" → k ≠ "tags" → k ≠ "photos" → k ≠ "age" →
          k ≠ "updated_at" → p !! k = old !! k).
Proof.
  intros Hu Hch Hold s'.
  destruct (update_profile_run rt payload s u Hu Hch)
    as (s1 & upd & Hupd & Hprof & _ & Hrun).
  subst s'. rewrite Hrun. clear Hrun.
  apply find_one_Some_iff in Hold as (i & Hi & Hq & Hlt).
  destruct (update_one_cases {[ "user_id" := VOid u ]}
              (<["updated_at" := VDate (utcnow rt (clock s))]> (changes_of payload))
              ∅ false (new_oid rt (minted s)) (profiles s))
    as [(i' & d & Hi' & Hd & Hlt' & Hcase)|(Hnone & _)].
  2: { destruct (Hnone old); [by eapply list_elem_of_lookup_2|done]. }
  assert (i' = i) as ->.
  { destruct (Nat.lt_trichotomy i' i) as [?|[?|?]]; [|done|].
    - by destruct (Hlt i' d).
    - by destruct (Hlt' i old). }
  assert (d = old) as -> by congruence.
  rewrite <- Hupd in Hcase. rewrite Hcase in Hprof |- *. cbn [fst snd] in *.
  rewrite bool_decide_eq_false_2 by done.
  set (p := <["updated_at" := VDate (utcnow rt (clock s))]> (changes_of payload) ∪ old)
    in *.
  assert (p !! "user_id" = Some (VOid u)) as Hpu.
  { subst p. rewrite changes_other by done. by apply qmatch_by_user. }
  assert (find_one (QEq {[ "user_id" := VOid u ]}) (profiles s1) = Some p) as Hp.
  { rewrite Hprof. eapply find_one_insert; [exact Hi|exact Hlt|].
    by apply qmatch_by_user. }
  exists p. rewrite Hp. cbn [snd].
  split; [reflexivity|].
  split; [by apply (get_my_profile_found rt _ _ u)|].
  split; [by apply find_one_Some in Hp as [? _]|].
  split; [by rewrite Hprof, length_insert|].
  destruct (changes_lookup payload (utcnow rt (clock s)) old)
    as (? & ? & ? & ? & ? & ?).
  split_and!; [assumption..|].
  intros k ? ? ? ? ? ?. subst p. by apply changes_other.
Qed.

Lemma profile_update_applied_witness :
  let s := run sample_rt three_profiles initial in
  let payload := profile_update bob (Some "Robert") in
  let old := profile_new (profile_details bob "Bob") 11%N 1002 1003 4097%N in
  let s' := (update_profile sample_rt payload s).2 in
  ∃ p,
    update_profile sample_rt payload s = (Ok (serialize sample_rt (Some p)), s') ∧
    get_my_profile sample_rt (ProfileUpdate.user_id payload) s' =
      (Ok (serialize sample_rt (Some p)), s') ∧
    p ∈ profiles s' ∧
    length (profiles s') = length (profiles s) ∧
    p !! "nickname" = updated VStr (ProfileUpdate.nickname payload) (old !! "nickname") ∧
    p !! "bio" = updated VStr (ProfileUpdate.bio payload) (old !! "bio") ∧
    p !! "tags" = updated VStrs (ProfileUpdate.tags payload) (old !! "tags") ∧
    p !! "photos" = updated VStrs (ProfileUpdate.photos payload) (old !! "photos") ∧
    p !! "age" = updated VInt (ProfileUpdate.age payload) (old !! "age") ∧
    p !! "updated_at" = Some (VDate (utcnow sample_rt (clock s))) ∧
    (∀ k, k ≠ "nickname" → k ≠ "bio" → k ≠ "tags" → k ≠ "photos" → k ≠ "age" →
          k ≠ "updated_at" → p !! k = old !! k).
Proof.
  apply (profile_update_applied sample_rt _ (profile_update bob (Some "Robert")) 11%N).
  - reflexivity.
  - intros H. apply (f_equal (λ m : dict, m !! "nickname")) in H. discriminate H.
  - reflexivity.
Defined.

(** What a request does to the profiles: nothing, or one [update_one] keyed
    on a user that keeps the [user_id] of the profile it changes. *)
Lemma handle_profiles rt r s :
  profiles (handle rt r s) = profiles s ∨
  ∃ u set soi upsert fresh,
    profiles (handle rt r s) =
      (update_one {[ "user_id" := VOid u ]} set soi upsert fresh (profiles s)).1.1 ∧
    (∀ d k, k ≠ "nickname" → k ≠ "bio" → k ≠ "tags" → k ≠ "photos" → k ≠ "age" →
            k ≠ "updated_at" → k ≠ "user_id" → (set ∪ d) !! k = d !! k) ∧
    (∀ d, d !! "user_id" = Some (VOid u) → (set ∪ d) !! "user_id" = Some (VOid u)) ∧
    (set ∪ (soi ∪ {[ "user_id" := VOid u ]})) !! "user_id" = Some (VOid u).
Proof.
  destruct r as [details|payload|user_id|payload|user_id|user_id peer_id limit|payload];
    cbn [handle].
  - destruct (ObjectId_parse rt (ProfileDetails.user_id details)) as [u|] eqn:Hu.
    2: { left. unfold create_or_complete_profile. by rewrite to_oid_invalid. }
    right. destruct (create_profile_run rt details s u Hu) as (s' & -> & Hprof).
    eexists u, _, _, _, _. split; [exact Hprof|]. split_and!.
    + intros d k ? ? ? ? ? ? ?. apply profile_set_other. unfold profile_set.
      rewrite !lookup_insert_ne by done. by apply lookup_singleton_ne.
    + intros d _. apply profile_set_user_id.
    + apply profile_set_user_id.
  - destruct (ObjectId_parse rt (ProfileUpdate.user_id payload)) as [u|] eqn:Hu.
    2: { left. unfold update_profile. by rewrite to_oid_invalid. }
    destruct (decide (changes_of payload = ∅)) as [Hempty|Hch].
    { left. unfold update_profile. rewrite (to_oid_valid rt _ u) by done.
      fold (changes_of payload). by rewrite Hempty. }
    right. destruct (update_profile_run rt payload s u Hu Hch)
      as (s' & upd & -> & Hprof & _ & ->).
    eexists u, _, _, _, _. split; [by destruct (bool_decide _)|]. split_and!.
    + intros d k ? ? ? ? ? ? ?. by apply changes_other.
    + intros d Hd. by rewrite changes_other.
    + by rewrite changes_other.
  - left. by rewrite read_only_next_profile.
  - left. by apply preserves_like_profile.
  - left. by rewrite read_only_list_chats.
  - left. by rewrite read_only_get_messages.
  - left. by apply preserves_send_message.
Qed.

Lemma new_doc_lookup (x : dict) fresh k :
  k ≠ "_id" →
  (if x !! "_id" is Some _ then x else <["_id" := VOid fresh]> x) !! k = x !! k.
Proof. intros H. destruct (x !! "_id"); [done|]. by rewrite lookup_insert_ne. Qed.

Lemma update_one_user_NoDup u set soi upsert fresh (c : collection) :
  (∀ d, d !! "user_id" = Some (VOid u) → (set ∪ d) !! "user_id" = Some (VOid u)) →
  (set ∪ (soi ∪ {[ "user_id" := VOid u ]})) !! "user_id" = Some (VOid u) →
  NoDup ((.!! "user_id") <$> c) →
  NoDup ((.!! "user_id") <$>
           (update_one {[ "user_id" := VOid u ]} set soi upsert fresh c).1.1).
Proof.
  intros Hset Hnew Hnd.
  destruct (update_one_cases {[ "user_id" := VOid u ]} set soi upsert fresh c)
    as [(i & d & Hi & Hd%qmatch_by_user & _ & ->)|(Hnone & _ & ->)]; cbn [fst].
  - rewrite list_fmap_insert, (Hset d Hd), <- Hd.
    rewrite list_insert_id; [done|]. by rewrite list_lookup_fmap, Hi.
  - destruct upsert; [|done].
    rewrite fmap_app. apply NoDup_app. split_and!; [done| |apply NoDup_singleton].
    intros x Hx Hin. apply list_elem_of_fmap in Hx as (d & -> & Hd).
    apply list_elem_of_singleton in Hin.
    rewrite new_doc_lookup, Hnew in Hin by done.
    destruct (Hnone d Hd). by apply qmatch_by_user.
Qed.

Lemma profiles_NoDup rt reqs :
  NoDup ((.!! "user_id") <$> profiles (run rt reqs initial)).
Proof.
  induction reqs as [|r reqs IH] using rev_ind; [apply NoDup_nil_2|].
  rewrite run_snoc.
  destruct (handle_profiles rt r (run rt reqs initial))
    as [->|(u & set & soi & upsert & fresh & -> & _ & Hset & Hnew)]; [done|].
  by apply update_one_user_NoDup.
Qed.

(** X17. A store built by the handlers has at most one profile per user. *)
Theorem one_profile_per_user rt reqs u :
  (length (filter (profile_of u) (profiles (run rt reqs initial))) ≤ 1)%nat.
Proof.
  pose proof (profiles_NoDup rt reqs) as Hnd.
  induction (profiles (run rt reqs initial)) as [|d l IH]; [cbn; lia|].
  rewrite fmap_cons, NoDup_cons in Hnd. destruct Hnd as [Hd Hl].
  rewrite filter_cons. destruct (decide (profile_of u d)) as [Hu|]; [|by apply IH].
  destruct (filter (profile_of u) l) as [|d' l'] eqn:E; [cbn; lia|].
  assert (d' ∈ filter (profile_of u) l) as [Hu' Hin]%list_elem_of_filter
    by (rewrite E; left).
  destruct Hd. apply list_elem_of_fmap. exists d'. split; [|done].
  unfold profile_of in *. congruence.
Qed.

Lemma update_one_column flt set soi upsert fresh (c : collection) k :
  (∀ d, qmatch (QEq flt) d = true → (set ∪ d) !! k = d !! k) →
  ((.!! k) <$> c) `prefix_of`
    ((.!! k) <$> (update_one flt set soi upsert fresh c).1.1).
Proof.
  intros Hset.
  destruct (update_one_cases flt set soi upsert fresh c)
    as [(i & d & Hi & Hd & _ & ->)|(_ & _ & ->)]; cbn [fst].
  - rewrite list_fmap_insert, (Hset d Hd).
    rewrite list_insert_id; [done|]. by rewrite list_lookup_fmap, Hi.
  - destruct upsert; [|done]. rewrite fmap_app. by apply prefix_app_r.
Qed.

(** X18. No request removes or moves a profile, and none changes a field of
    a profile other than nickname, bio, tags, photos, age and [updated_at]:
    for any other key, [user_id], [created_at] and [_id] among them, the
    values down the profiles before are a prefix of the values after. *)
Theorem profiles_kept rt reqs s k :
  k ≠ "nickname" → k ≠ "bio" → k ≠ "tags" → k ≠ "photos" → k ≠ "age" →
  k ≠ "updated_at" →
  ((.!! k) <$> profiles s) `prefix_of` ((.!! k) <$> profiles (run rt reqs s)).
Proof.
  intros H1 H2 H3 H4 H5 H6.
  induction reqs as [|r reqs IH] using rev_ind; [done|].
  rewrite run_snoc. etrans; [exact IH|].
  destruct (handle_profiles rt r (run rt reqs s))
    as [->|(u & set & soi & upsert & fresh & -> & Hother & Hset & _)]; [done|].
  apply update_one_column. intros d Hd%qmatch_by_user.
  destruct (decide (k = "user_id")) as [->|Hk].
  - by rewrite (Hset d Hd).
  - by apply Hother.
Qed.

Lemma profiles_kept_witness :
  let s := run sample_rt three_profiles initial in
  let reqs := [ PostProfileUpdate (profile_update bob (Some "Robert"));
                PostProfileDetails (profile_details alice "Al") ] in
  ((.!! "created_at") <$> profiles s) `prefix_of`
    ((.!! "created_at") <$> profiles (run sample_rt reqs s)).
Proof.
  apply (profiles_kept sample_rt _ _ "created_at"); discriminate.
Defined.

(** X19. [get_my_profile] answers 404 "Profile not found" exactly when no
    profile is stored for the user, and otherwise the serialized form of the
    first profile stored for that user, which shows that user. *)
Theorem profile_lookup rt s sU u :
  ObjectId_parse rt sU = Some u →
  (¬ has_profile s u →
   get_my_profile rt sU s = rejected 404 "Profile not found" s) ∧
  (has_profile s u →
   ∃ p, find_one (QEq {[ "user_id" := VOid u ]}) (profiles s) = Some p ∧
        get_my_profile rt sU s = (Ok (serialize rt (Some p)), s) ∧
        shows u (serialize rt (Some p))).
Proof.
  intros Hu. split.
  - intros Hnone. unfold get_my_profile. rewrite (to_oid_valid rt _ u) by done.
    unfold bind, db_find_one. fold (profiles s).
    rewrite (proj2 (find_one_None _ (profiles s))); [done|].
    intros d Hd Hq%qmatch_by_user. apply Hnone. by exists d.
  - intros (p' & Hp' & Hup').
    destruct (find_one (QEq {[ "user_id" := VOid u ]}) (profiles s)) as [p|] eqn:Hp.
    2: { rewrite find_one_None in Hp. destruct (Hp p' Hp'). by apply qmatch_by_user. }
    exists p. split; [done|]. split; [by apply (get_my_profile_found rt _ _ u)|].
    apply shows_serialize. by apply find_one_Some in Hp as [_ ?%qmatch_by_user].
Qed.

Lemma profile_lookup_witness :
  let s := run sample_rt three_profiles initial in
  (¬ has_profile s 11%N →
   get_my_profile sample_rt bob s = rejected 404 "Profile not found" s) ∧
  (has_profile s 11%N →
   ∃ p, find_one (QEq {[ "user_id" := VOid 11%N ]}) (profiles s) = Some p ∧
        get_my_profile sample_rt bob s = (Ok (serialize sample_rt (Some p)), s) ∧
        shows 11%N (serialize sample_rt (Some p))).
Proof.
  apply (profile_lookup sample_rt _ bob 11%N). reflexivity.
Defined.
